(** * DocSplitter: the archive-rewrite and page-segmentation core of main.py

    A shallow embedding of the functions of [main.py] that split one
    HWPX document along a textual marker and merge several documents into
    one, together with the properties of the specification that concern
    them.

    Conventions of the embedding.
    - A Python [str] is the list of its code points ([list N]); [bytes] is
      [list byte]; a Python [int] is a [Z].
    - Every [Element] carries the identity of the Python object ([oid]);
      the parser, [ET.Element] and [copy.deepcopy] allocate fresh
      identities from a counter kept in the world.
    - Functions that touch the file system or the log thread a [World];
      a call either returns a value or raises an exception ([result]). *)

From Stdlib Require Import Strings.String Strings.Ascii Strings.Byte Sorting.Sorted.
From stdpp Require Import gmap list numbers pretty.

Local Set Warnings "-register-all".
Open Scope N_scope.
Open Scope list_scope.

(** ** Python strings *)

Module Str.

Definition str := list N.

(** An ASCII literal as a [str]. *)
Definition ascii_str (s : string) : str :=
  map N_of_ascii (list_ascii_of_string s).

(** [s.startswith(t)] *)
Fixpoint startswith (s t : str) {struct t} : bool :=
  match t, s with
  | [], _ => true
  | _ :: _, [] => false
  | a :: t', b :: s' => (a =? b) && startswith s' t'
  end.

(** [t in s] for two strings: [t] occurs in [s] as a contiguous run. *)
Fixpoint contains (t s : str) : bool :=
  startswith s t ||
  match s with
  | [] => false
  | _ :: s' => contains t s'
  end.

(** [s.endswith(t)] *)
Definition endswith (s t : str) : bool :=
  startswith (rev s) (rev t).

(** [s.lower()], on the ASCII letters.  The only use in the program is
    the test of a file name's last five characters against [.hwpx] and
    [.hwtx]; no character outside ASCII lower-cases to one of
    [. h w p t x]. *)
Definition lower_char (c : N) : N :=
  if (65 <=? c) && (c <=? 90) then c + 32 else c.
Definition lower (s : str) : str := map lower_char s.

(** [''.join(parts)] *)
Definition join (parts : list str) : str := concat parts.

(** [str(n)] for a non-negative integer. *)
Definition of_N (n : N) : str := ascii_str (pretty n).

(** The order of [list.sort] on strings: lexicographic by code point. *)
Fixpoint leb (a b : str) : bool :=
  match a, b with
  | [], _ => true
  | _ :: _, [] => false
  | x :: a', y :: b' => (x <? y) || ((x =? y) && leb a' b')
  end.

(** The occurrence relation that [contains] decides. *)
Definition occurs_in (t s : str) : Prop :=
  exists a b, s = a ++ t ++ b.

End Str.
Import Str.

(** ** Content trees *)

(** An [xml.etree.ElementTree.Element]: the identity of the object, its
    tag, attribute dictionary, text before the first child, text after
    the end tag, and children. *)
Inductive Element : Type :=
  mkElement (oid : nat) (tag : str) (attrib : list (str * str))
            (text tail : option str) (children : list Element).

Definition oid (e : Element) : nat := let 'mkElement i _ _ _ _ _ := e in i.
Definition tag (e : Element) : str := let 'mkElement _ t _ _ _ _ := e in t.
Definition attrib (e : Element) : list (str * str) :=
  let 'mkElement _ _ a _ _ _ := e in a.
Definition text (e : Element) : option str := let 'mkElement _ _ _ t _ _ := e in t.
Definition tail (e : Element) : option str := let 'mkElement _ _ _ _ t _ := e in t.
Definition children (e : Element) : list Element :=
  let 'mkElement _ _ _ _ _ c := e in c.

(** An [ElementTree] is a wrapper around its root. *)
Record ElementTree := mkElementTree { getroot : Element }.

(** The tree without its object identities: what two copies of a tree
    have in common. *)
Fixpoint strip (e : Element) : Element :=
  match e with
  | mkElement _ tg at_ tx tl cs => mkElement 0 tg at_ tx tl (map strip cs)
  end.

(** The identities of the nodes of a tree, in document order. *)
Fixpoint oids (e : Element) : list nat :=
  match e with
  | mkElement i _ _ _ _ cs => i :: concat (map oids cs)
  end.

(** The number of nodes of a tree. *)
Fixpoint size (e : Element) : nat :=
  match e with
  | mkElement _ _ _ _ _ cs => S (list_sum (map size cs))
  end.

(** [if t: yield t] *)
Definition yield_if (t : option str) : list str :=
  match t with
  | Some (c :: r) => [c :: r]
  | _ => []
  end.

(** [Element.itertext]: the element's text, then for every child its own
    [itertext] followed by the child's tail. *)
Fixpoint itertext (e : Element) : list str :=
  match e with
  | mkElement _ _ _ tx _ cs =>
      yield_if tx
      ++ concat (map (fun c => itertext c ++ yield_if (tail c)) cs)
  end.

(** [''.join(page.itertext())] *)
Definition page_text (page : Element) : str := join (itertext page).

(** ** Page segmentation *)

(** [pages[k:]] for a Python integer [k]. *)
Definition slice_from {A} (l : list A) (k : Z) : list A :=
  if (0 <=? k)%Z then drop (Z.to_nat k) l
  else drop (length l - Z.to_nat (- k))%nat l.

(** Truth value of a list. *)
Definition truthy {A} (l : list A) : bool :=
  match l with [] => false | _ => true end.

Section Segment.
Context {A : Type} (has_marker : A -> bool).

(** The [for page in pages] loop of [split_by_template], with its two
    mutable variables as accumulators. *)
Fixpoint split_loop (pages : list A) (sections : list (list A))
         (current_section : list A) : list (list A) * list A :=
  match pages with
  | [] => (sections, current_section)
  | page :: rest =>
      if has_marker page then
        split_loop rest
          (if truthy current_section then sections ++ [current_section]
           else sections)
          [page]
      else
        split_loop rest sections
          (if truthy current_section then current_section ++ [page]
           else current_section)
  end.

(** The statements after the loop. *)
Definition close_section (st : list (list A) * list A) : list (list A) :=
  if truthy st.2 then st.1 ++ [st.2] else st.1.

Definition segment (pages : list A) : list (list A) :=
  close_section (split_loop pages [] []).

(** The pages in front of the first page that carries the marker. *)
Fixpoint leading_unmarked (pages : list A) : list A :=
  match pages with
  | [] => []
  | p :: rest => if has_marker p then [] else p :: leading_unmarked rest
  end.
End Segment.

Definition marker_in (template : str) (page : Element) : bool :=
  contains template (page_text page).

Definition split_by_template (tree : ElementTree) (template : str)
           (skip_pages : Z) : list (list Element) :=
  let root := getroot tree in
  let pages := children root in
  let pages := slice_from pages skip_pages in
  segment (marker_in template) pages.

(** The pages that [split_by_template] leaves out of every section: the
    ones the slice removes and the ones in front of the first match. *)
Definition skipped_pages (tree : ElementTree) (skip_pages : Z) : list Element :=
  take (Z.to_nat skip_pages) (children (getroot tree)).

Definition orphan_pages (tree : ElementTree) (template : str)
           (skip_pages : Z) : list Element :=
  leading_unmarked (marker_in template)
    (slice_from (children (getroot tree)) skip_pages).

(** ** Exceptions and results *)

(** An exception object: its class, [str(e)], and the exception that was
    being handled when it was raised ([__context__]). *)
Inductive PyExc : Type :=
  mkExc (cls : str) (msg : str) (context : option PyExc).

Definition exc_cls (e : PyExc) : str := let 'mkExc c _ _ := e in c.
Definition exc_msg (e : PyExc) : str := let 'mkExc _ m _ := e in m.
Definition exc_context (e : PyExc) : option PyExc := let 'mkExc _ _ c := e in c.

Inductive result (A : Type) : Type :=
| Ok (a : A)
| Raise (e : PyExc).
Arguments Ok {A} a.
Arguments Raise {A} e.

Definition rbind {A B} (r : result A) (k : A -> result B) : result B :=
  match r with
  | Ok a => k a
  | Raise e => Raise e
  end.

(** ** Sorting *)

(** [sorted(l, key=key)]: the stable sort by [key] under the order of
    strings. *)
Fixpoint insert_by {A} (key : A -> str) (x : A) (l : list A) : list A :=
  match l with
  | [] => [x]
  | y :: l' => if leb (key x) (key y) then x :: y :: l'
               else y :: insert_by key x l'
  end.

Definition sorted_by {A} (key : A -> str) (l : list A) : list A :=
  foldr (insert_by key) [] l.

(** ** Serialisation of a tree: [ET.tostring(root, encoding="utf-8", method="xml")] *)

Module ET.

Definition lt_ : N := 60.   (* < *)
Definition gt_ : N := 62.   (* > *)
Definition amp_ : N := 38.  (* & *)
Definition quot_ : N := 34. (* double quote *)

(** [text.replace(c, by)] for a single character [c]. *)
Definition replace_char (c : N) (by_ : str) (s : str) : str :=
  concat (map (fun x => if x =? c then by_ else [x]) s).

Definition _escape_cdata (text : str) : str :=
  let text := replace_char amp_ (ascii_str "&amp;") text in
  let text := replace_char lt_ (ascii_str "&lt;") text in
  let text := replace_char gt_ (ascii_str "&gt;") text in
  text.

Definition _escape_attrib (text : str) : str :=
  let text := replace_char amp_ (ascii_str "&amp;") text in
  let text := replace_char lt_ (ascii_str "&lt;") text in
  let text := replace_char gt_ (ascii_str "&gt;") text in
  let text := replace_char quot_ (ascii_str "&quot;") text in
  let text := replace_char 13 (ascii_str "&#13;") text in
  let text := replace_char 10 (ascii_str "&#10;") text in
  let text := replace_char 9 (ascii_str "&#09;") text in
  text.

(** Dictionaries in insertion order. *)
Definition dict := list (str * str).

Definition dict_get (d : dict) (k : str) : option str :=
  snd <$> find (fun kv => bool_decide (kv.1 = k)) d.

(** The well-known prefixes of the module. *)
Definition _namespace_map : dict :=
  [ (ascii_str "http://www.w3.org/XML/1998/namespace", ascii_str "xml");
    (ascii_str "http://www.w3.org/1999/xhtml", ascii_str "html");
    (ascii_str "http://www.w3.org/1999/02/22-rdf-syntax-ns#", ascii_str "rdf");
    (ascii_str "http://schemas.xmlsoap.org/wsdl/", ascii_str "wsdl");
    (ascii_str "http://www.w3.org/2001/XMLSchema", ascii_str "xs");
    (ascii_str "http://www.w3.org/2001/XMLSchema-instance", ascii_str "xsi");
    (ascii_str "http://purl.org/dc/elements/1.1/", ascii_str "dc") ].

(** [s.rsplit("}", 1)] when it yields two parts: the text before the
    last closing brace and the text after it. *)
Fixpoint split_first (c : N) (s : str) : option (str * str) :=
  match s with
  | [] => None
  | x :: s' =>
      if x =? c then Some ([], s')
      else match split_first c s' with
           | Some (a, b) => Some (x :: a, b)
           | None => None
           end
  end.

Definition rsplit_brace (s : str) : option (str * str) :=
  match split_first 125 (rev s) with
  | Some (a, b) => Some (rev b, rev a)
  | None => None
  end.

Definition unpack_error : PyExc :=
  mkExc (ascii_str "ValueError")
        (ascii_str "not enough values to unpack (expected 2, got 1)") None.

(** The two tables of [_namespaces]: serialised names by qualified
    name, and prefixes by namespace URI. *)
Definition tables := (dict * dict)%type.

Definition add_qname (st : tables) (qname : str) : result tables :=
  let '(qnames, namespaces) := st in
  match qname with
  | 123 :: rest =>
      match rsplit_brace rest with
      | None => Raise unpack_error
      | Some (uri, tag) =>
          let '(prefix, namespaces) :=
            match dict_get namespaces uri with
            | Some prefix => (prefix, namespaces)
            | None =>
                let prefix :=
                  match dict_get _namespace_map uri with
                  | Some prefix => prefix
                  | None => ascii_str "ns"
                              ++ of_N (N.of_nat (length namespaces))
                  end in
                (prefix,
                 if bool_decide (prefix = ascii_str "xml") then namespaces
                 else namespaces ++ [(uri, prefix)])
            end in
          Ok (qnames ++ [(qname,
                          if truthy prefix then prefix ++ [58] ++ tag
                          else tag)],
              namespaces)
      end
  | _ => Ok (qnames ++ [(qname, qname)], namespaces)
  end.

(** [if q not in qnames: add_qname(q)] *)
Definition note_qname (st : tables) (q : str) : result tables :=
  match dict_get st.1 q with
  | Some _ => Ok st
  | None => add_qname st q
  end.

Fixpoint note_keys (st : tables) (keys : list str) : result tables :=
  match keys with
  | [] => Ok st
  | k :: keys' => rbind (note_qname st k) (fun st' => note_keys st' keys')
  end.

(** The loop [for elem in elem.iter()] of [_namespaces]. *)
Fixpoint populate (e : Element) (st : tables) : result tables :=
  match e with
  | mkElement _ tg at_ _ _ cs =>
      rbind (note_qname st tg) (fun st =>
      rbind (note_keys st (map fst at_)) (fun st =>
        (fix over (l : list Element) (st : tables) : result tables :=
           match l with
           | [] => Ok st
           | c :: l' => rbind (populate c st) (over l')
           end) cs st))
  end.

(** The inner loop of [populate], by name. *)
Fixpoint populate_list (l : list Element) (st : tables) : result tables :=
  match l with
  | [] => Ok st
  | c :: l' => rbind (populate c st) (populate_list l')
  end.

Definition _namespaces (elem : Element) : result tables :=
  populate elem ([], []).

(** [qnames[k]]; the key is present for every name of the tree. *)
Definition qname_of (qnames : dict) (k : str) : str :=
  default k (dict_get qnames k).

Definition write_attrib (qnames : dict) (kv : str * str) : str :=
  [32] ++ qname_of qnames kv.1 ++ [61; quot_] ++ _escape_attrib kv.2 ++ [quot_].

Definition write_xmlns (vk : str * str) : str :=
  let '(v, k) := vk in
  ascii_str " xmlns" ++ (if truthy k then 58 :: k else k)
    ++ [61; quot_] ++ _escape_attrib v ++ [quot_].

Definition opt_text (f : str -> str) (t : option str) : str :=
  match t with
  | Some (c :: r) => f (c :: r)
  | _ => []
  end.

(** [_serialize_xml], with [short_empty_elements] set. *)
Fixpoint _serialize_xml (qnames : dict) (namespaces : dict) (e : Element) : str :=
  match e with
  | mkElement _ tg at_ tx tl cs =>
      let tag := qname_of qnames tg in
      [lt_] ++ tag
      ++ concat (map write_xmlns (sorted_by snd namespaces))
      ++ concat (map (write_attrib qnames) at_)
      ++ (if truthy (opt_text id tx) || truthy cs then
            [gt_] ++ opt_text _escape_cdata tx
            ++ concat (map (_serialize_xml qnames []) cs)
            ++ [lt_; 47] ++ tag ++ [gt_]
          else ascii_str " />")
      ++ opt_text _escape_cdata tl
  end.

(** The bytes of a code point below 256. *)
Definition byte_of (n : N) : byte := default x00 (Byte.of_N n).

(** [s.encode("utf-8", errors="xmlcharrefreplace")]: a surrogate, which
    UTF-8 cannot carry, becomes a character reference. *)
Definition encode_char (c : N) : list byte :=
  if c <? 128 then [byte_of c]
  else if c <? 2048 then [byte_of (192 + c / 64); byte_of (128 + c mod 64)]
  else if (55296 <=? c) && (c <=? 57343) then
    map byte_of (ascii_str "&#" ++ of_N c ++ ascii_str ";")
  else if c <? 65536 then
    [byte_of (224 + c / 4096); byte_of (128 + (c / 64) mod 64);
     byte_of (128 + c mod 64)]
  else
    [byte_of (240 + c / 262144); byte_of (128 + (c / 4096) mod 64);
     byte_of (128 + (c / 64) mod 64); byte_of (128 + c mod 64)].

Definition encode (s : str) : list byte := concat (map encode_char s).

Definition tostring (element : Element) : result (list byte) :=
  rbind (_namespaces element) (fun '(qnames, namespaces) =>
    Ok (encode (_serialize_xml qnames namespaces element))).

End ET.

(** ** Literals of the program *)

(** The text of a UTF-8 source literal. *)
Fixpoint utf8_decode (l : list N) : str :=
  match l with
  | [] => []
  | b :: r =>
      if b <? 128 then b :: utf8_decode r
      else if b <? 224 then
        match r with
        | b1 :: r => ((b - 192) * 64 + (b1 - 128)) :: utf8_decode r
        | _ => []
        end
      else if b <? 240 then
        match r with
        | b1 :: b2 :: r =>
            ((b - 224) * 4096 + (b1 - 128) * 64 + (b2 - 128)) :: utf8_decode r
        | _ => []
        end
      else
        match r with
        | b1 :: b2 :: b3 :: r =>
            ((b - 240) * 262144 + (b1 - 128) * 4096 + (b2 - 128) * 64 + (b3 - 128))
              :: utf8_decode r
        | _ => []
        end
  end.

Definition u (s : string) : str := utf8_decode (ascii_str s).

#[global] Arguments u : simpl never.
#[global] Arguments ascii_str : simpl never.

(** ** Zip archives *)

(** The attributes of a [ZipInfo] that [writestr] writes as it finds
    them.  Sizes, checksum, offsets and flag bits, which the library
    computes anew for every entry it writes, are not part of the model. *)
Record ZipInfo := mkZipInfo {
  filename : str;
  date_time : N * N * N * N * N * N;
  compress_type : Z;
  comment : list byte
}.

(** A member of an archive: its directory entry and the bytes stored for
    it (compressed by the method of the entry). *)
Record Member := mkMember {
  info : ZipInfo;
  stored : list byte
}.

(** The library functions the program relies on and that the embedding
    leaves open: the codec behind [ZipFile.read] and [ZipFile.writestr]
    for a compression method, the XML parser behind [ET.parse], and the
    exceptions of the operating system. *)
Class Library := {
  compress : Z -> list byte -> result (list byte);
  decompress : Z -> list byte -> result (list byte);
  XMLParser : list byte -> result Element;
  (** opening for reading a path that is no regular file *)
  open_error : str -> PyExc;
  (** opening for writing a path that is a directory *)
  create_error : str -> PyExc;
  (** [os.makedirs] on a path that is a regular file, or empty *)
  makedirs_error : str -> PyExc
}.

(** What a codec guarantees: what it compressed it gives back, and a
    method it can read it can also write. *)
Class LibraryLaws (L : Library) := {
  decompress_compress m d s : compress m d = Ok s -> decompress m s = Ok d;
  compress_supported m s d d' :
    decompress m s = Ok d -> exists s', compress m d' = Ok s'
}.

(** [xml.etree.ElementTree.ParseError] as expat words it. *)
Definition ParseError (error_string : str) (line column : N) : PyExc :=
  mkExc (ascii_str "xml.etree.ElementTree.ParseError")
        (error_string ++ ascii_str ": line " ++ of_N line
           ++ ascii_str ", column " ++ of_N column)
        None.

Definition namelist (z : list Member) : list str := map (fun m => filename (info m)) z.
Definition infolist (z : list Member) : list ZipInfo := map info z.

(** [ZipFile.getinfo]: the directory keeps, for a name, the last entry
    read with that name. *)
Definition getinfo (z : list Member) (name : str) : option Member :=
  last (filter (fun m => filename (info m) = name) z).

Definition KeyError (name : str) : PyExc :=
  mkExc (ascii_str "KeyError")
        (ascii_str "There is no item named '" ++ name ++ ascii_str "' in the archive")
        None.

Section Zip.
Context `{L : Library}.

(** [ZipFile.read(name)] *)
Definition zip_read (z : list Member) (name : str) : result (list byte) :=
  match getinfo z name with
  | Some m => decompress (compress_type (info m)) (stored m)
  | None => Raise (KeyError name)
  end.

(** [ZipFile.writestr(item, data)] on the members written so far. *)
Definition writestr (zout : list Member) (item : ZipInfo) (data : list byte)
  : result (list Member) :=
  rbind (compress (compress_type item) data) (fun s =>
    Ok (zout ++ [mkMember item s])).
End Zip.

(** ** The world: files, directories, object identities, log *)

(** A regular file: a zip archive, or a file [zipfile.ZipFile] refuses
    with the given exception. *)
Inductive File : Type :=
| Archive (members : list Member)
| NotArchive (e : PyExc).

Record World := mkWorld {
  files : gmap str File;          (* regular files by path *)
  dirs : gmap str (list str);     (* directories by path, with their listing *)
  next_oid : nat;                 (* the next unused object identity *)
  log : list str                  (* what [log_callback] received *)
}.

Definition M (A : Type) : Type := World -> result A * World.

Definition ret {A} (a : A) : M A := fun w => (Ok a, w).
Definition raise {A} (e : PyExc) : M A := fun w => (Raise e, w).
Definition bind {A B} (c : M A) (k : A -> M B) : M B :=
  fun w => match c w with
           | (Ok a, w') => k a w'
           | (Raise e, w') => (Raise e, w')
           end.
Definition lift {A} (r : result A) : M A := fun w => (r, w).

(** [try: c  except Exception as e: handler(e)] *)
Definition try_except {A} (c : M A) (handler : PyExc -> M A) : M A :=
  fun w => match c w with
           | (Ok a, w') => (Ok a, w')
           | (Raise e, w') => handler e w'
           end.

Notation "x <- c ;; k" := (bind c (fun x => k))
  (at level 100, c at next level, right associativity).

Definition log_callback (message : str) : M unit :=
  fun w => (Ok tt, mkWorld (files w) (dirs w) (next_oid w) (log w ++ [message])).

(** Object creation. *)

(** A copy of a tree in which every node is a new object: the nodes take
    the identities from [n] on, in document order. *)
Fixpoint relabel (e : Element) (n : nat) : Element * nat :=
  match e with
  | mkElement _ tg at_ tx tl cs =>
      let '(cs', n') :=
        (fix over (l : list Element) (n : nat) : list Element * nat :=
           match l with
           | [] => ([], n)
           | c :: l' =>
               let '(c', n1) := relabel c n in
               let '(l'', n2) := over l' n1 in
               (c' :: l'', n2)
           end) cs (S n) in
      (mkElement n tg at_ tx tl cs', n')
  end.

(** The same for a list of trees, one after the other. *)
Fixpoint relabel_list (l : list Element) (n : nat) : list Element * nat :=
  match l with
  | [] => ([], n)
  | c :: l' =>
      let '(c', n1) := relabel c n in
      let '(l'', n2) := relabel_list l' n1 in
      (c' :: l'', n2)
  end.

Definition allocate (e : Element) : M Element :=
  fun w => let '(e', n) := relabel e (next_oid w) in
           (Ok e', mkWorld (files w) (dirs w) n (log w)).

(** [copy.deepcopy(page)] *)
Definition deepcopy (e : Element) : M Element := allocate e.

(** [copy.deepcopy(pages)] for a list of elements. *)
Fixpoint deepcopy_list (l : list Element) : M (list Element) :=
  match l with
  | [] => ret []
  | e :: l' =>
      e' <- deepcopy e ;;
      l'' <- deepcopy_list l' ;;
      ret (e' :: l'')
  end.

(** [ET.Element(tag, attrib)] *)
Definition ET_Element (tg : str) (at_ : list (str * str)) : M Element :=
  allocate (mkElement 0 tg at_ None None []).

(** [parent.append(child)] on a parent held by the caller alone. *)
Definition append (parent child : Element) : Element :=
  match parent with
  | mkElement i tg at_ tx tl cs => mkElement i tg at_ tx tl (cs ++ [child])
  end.

(** File system. *)

(** [os.path.join(a, b)] of [posixpath]. *)
Definition path_join (a b : str) : str :=
  if startswith b [47] then b
  else if negb (truthy a) || endswith a [47] then a ++ b
  else a ++ [47] ++ b.

Section FileSystem.
Context `{L : Library}.

(** [zipfile.ZipFile(path, 'r')] *)
Definition zip_open (path : str) : M (list Member) :=
  fun w => match files w !! path with
           | Some (Archive members) => (Ok members, w)
           | Some (NotArchive e) => (Raise e, w)
           | None => (Raise (open_error path), w)
           end.

Definition put_file (path : str) (f : File) : M unit :=
  fun w => (Ok tt, mkWorld (<[path := f]> (files w)) (dirs w) (next_oid w) (log w)).

(** [zipfile.ZipFile(path, 'w')]: the file is created, or emptied. *)
Definition zip_create (path : str) : M unit :=
  fun w => match dirs w !! path with
           | Some _ => (Raise (create_error path), w)
           | None => put_file path (Archive []) w
           end.

(** [os.makedirs(path, exist_ok=True)] *)
Definition makedirs (path : str) : M unit :=
  fun w => if negb (truthy path) || bool_decide (is_Some (files w !! path))
           then (Raise (makedirs_error path), w)
           else match dirs w !! path with
                | Some _ => (Ok tt, w)
                | None => (Ok tt, mkWorld (files w) (<[path := []]> (dirs w))
                                          (next_oid w) (log w))
                end.

(** [os.listdir(path)] *)
Definition listdir (path : str) : M (list str) :=
  fun w => match dirs w !! path with
           | Some names => (Ok names, w)
           | None => (Raise (open_error path), w)
           end.

(** [ET.parse(f)] on the bytes of a member: the tree the parser builds
    is made of new objects. *)
Definition ET_parse (data : list byte) : M ElementTree :=
  root <- lift (XMLParser data) ;;
  root' <- allocate root ;;
  ret (mkElementTree root').
End FileSystem.

(** ** The program *)

Section Program.
Context `{L : Library}.

(** *** [extract_hwpx_xml] *)

Definition section0 : str := ascii_str "Contents/section0.xml".

Definition FileNotFoundError (message : str) : PyExc :=
  mkExc (ascii_str "FileNotFoundError") message None.

(** [raise Exception(message)] inside the handler of [e]. *)
Definition Exception (message : str) (e : PyExc) : PyExc :=
  mkExc (ascii_str "Exception") message (Some e).

Definition missing_member_message (xml_path : str) : str :=
  ascii_str "'" ++ xml_path
    ++ u "' 파일을 찾을 수 없습니다. 파일 구조를 확인해주세요.".

Definition extract_error_prefix : str := u "파일 열기/파싱 중 오류 발생: ".

Definition extract_hwpx_xml (file_path : str) : M (ElementTree * str) :=
  try_except
    (z <- zip_open file_path ;;
     let xml_path := section0 in
     if bool_decide (xml_path ∈ namelist z) then
       data <- lift (zip_read z xml_path) ;;
       tree <- ET_parse data ;;
       ret (tree, xml_path)
     else
       raise (FileNotFoundError (missing_member_message xml_path)))
    (fun e => raise (Exception (extract_error_prefix ++ exc_msg e) e)).

(** What the parser makes of the content member of the file at a path:
    the value [extract_hwpx_xml] works on, before any object exists. *)
Definition read_document (w : World) (path : str) : result Element :=
  match files w !! path with
  | Some (Archive z) =>
      if bool_decide (section0 ∈ namelist z) then
        rbind (zip_read z section0) XMLParser
      else Raise (FileNotFoundError (missing_member_message section0))
  | Some (NotArchive e) => Raise e
  | None => Raise (open_error path)
  end.

(** *** [create_section_tree] *)

(** [for page in section_pages: new_root.append(copy.deepcopy(page))] *)
Fixpoint append_copies (new_root : Element) (section_pages : list Element)
  : M Element :=
  match section_pages with
  | [] => ret new_root
  | page :: rest =>
      page' <- deepcopy page ;;
      append_copies (append new_root page') rest
  end.

Definition create_section_tree (original_tree : ElementTree)
           (section_pages : list Element) : M ElementTree :=
  let root := getroot original_tree in
  new_root <- ET_Element (tag root) (attrib root) ;;
  new_root <- append_copies new_root section_pages ;;
  ret (mkElementTree new_root).

(** *** [create_section_hwpx] *)

(** The literal the program puts in front of the serialised tree. *)
Definition xml_declaration : str :=
  ascii_str "<?xml version=" ++ [34] ++ ascii_str "1.0" ++ [34]
    ++ ascii_str " encoding=" ++ [34] ++ ascii_str "utf-8" ++ [34]
    ++ ascii_str "?>" ++ [10].

Definition xml_declaration_bytes : list byte := map ET.byte_of xml_declaration.

(** A read from an archive whose file has been emptied meanwhile. *)
Definition BadZipFile_truncated : PyExc :=
  mkExc (ascii_str "zipfile.BadZipFile") (ascii_str "Truncated file header") None.

(** One turn of the loop over [zin.infolist()]. *)
Definition copy_member (emptied : bool) (zin : list Member)
           (section_tree : ElementTree) (xml_path : str)
           (zout : list Member) (item : ZipInfo) : result (list Member) :=
  if bool_decide (filename item = xml_path) then
    rbind (ET.tostring (getroot section_tree)) (fun xml_bytes =>
      let xml_content := xml_declaration_bytes ++ xml_bytes in
      writestr zout item xml_content)
  else
    rbind (if emptied then Raise BadZipFile_truncated
           else zip_read zin (filename item)) (fun file_data =>
      writestr zout item file_data).

(** The loop: the members written, and how the loop ended. *)
Fixpoint copy_members (emptied : bool) (zin : list Member)
         (section_tree : ElementTree) (xml_path : str)
         (items : list ZipInfo) (zout : list Member)
  : result unit * list Member :=
  match items with
  | [] => (Ok tt, zout)
  | item :: rest =>
      match copy_member emptied zin section_tree xml_path zout item with
      | Ok zout' => copy_members emptied zin section_tree xml_path rest zout'
      | Raise e => (Raise e, zout)
      end
  end.

(** Opening the output empties the file; when it is the file being
    read, the members of the input are gone.  What has been written
    when the loop ends, normally or not, is what the output holds. *)
Definition create_section_hwpx (original_file : str)
           (section_tree : ElementTree) (xml_path : str)
           (output_file : str) : M unit :=
  zin <- zip_open original_file ;;
  _ <- zip_create output_file ;;
  let '(outcome, zout) :=
    copy_members (bool_decide (original_file = output_file)) zin
                 section_tree xml_path (infolist zin) [] in
  _ <- put_file output_file (Archive zout) ;;
  lift outcome.

(** *** [process_file] *)

Definition section_file_name (i : nat) : str :=
  ascii_str "section_" ++ of_N (N.of_nat i) ++ ascii_str ".hwpx".

(** [for i, section_pages in enumerate(sections, start=i)] *)
Fixpoint write_sections (input_file output_dir : str) (tree : ElementTree)
         (xml_path : str) (i : nat) (sections : list (list Element))
  : M unit :=
  match sections with
  | [] => ret tt
  | section_pages :: rest =>
      _ <- log_callback (u "구간 " ++ of_N (N.of_nat i) ++ u "번 처리 중...") ;;
      section_tree <- create_section_tree tree section_pages ;;
      let output_file := path_join output_dir (section_file_name i) in
      _ <- try_except
             (_ <- create_section_hwpx input_file section_tree xml_path
                                       output_file ;;
              log_callback (u "구간 " ++ of_N (N.of_nat i) ++ u "번이 '"
                              ++ output_file ++ u "' 파일로 저장되었습니다."))
             (fun e =>
                log_callback (u "구간 " ++ of_N (N.of_nat i)
                                ++ u "번 저장 중 오류 발생: " ++ exc_msg e)) ;;
      write_sections input_file output_dir tree xml_path (S i) rest
  end.

Definition no_boundary_message (template : str) : str :=
  u "분리 기준 '" ++ template
    ++ u "'을(를) 포함하는 페이지를 찾지 못했습니다. 설정을 확인해주세요.".

(** [split_by_template] cannot raise on a tree of this model, so the
    handler around its call has no counterpart here. *)
Definition process_file (input_file output_dir template : str)
           (skip_pages : Z) : M unit :=
  extracted <- try_except
                 (_ <- log_callback (u "XML 파일 추출 중...") ;;
                  r <- extract_hwpx_xml input_file ;;
                  ret (Some r))
                 (fun e => _ <- log_callback (exc_msg e) ;; ret None) ;;
  match extracted with
  | None => ret tt
  | Some (tree, xml_path) =>
      _ <- log_callback (u "분리 기준에 따라 페이지 분리 중...") ;;
      let sections := split_by_template tree template skip_pages in
      if negb (truthy sections) then
        log_callback (no_boundary_message template)
      else
        _ <- makedirs output_dir ;;
        _ <- log_callback (u "총 " ++ of_N (N.of_nat (length sections))
                             ++ u "개의 구간이 발견되었습니다.") ;;
        write_sections input_file output_dir tree xml_path 1 sections
  end.

(** *** [merge_hwpx_files] *)

(** [file.lower().endswith(('.hwpx', '.hwtx'))] *)
Definition is_candidate (file : str) : bool :=
  endswith (lower file) (ascii_str ".hwpx")
  || endswith (lower file) (ascii_str ".hwtx").

(** [for file in os.listdir(input_folder)] *)
Fixpoint candidate_files (input_folder : str) (names : list str) : list str :=
  match names with
  | [] => []
  | file :: rest =>
      if is_candidate file then
        path_join input_folder file :: candidate_files input_folder rest
      else candidate_files input_folder rest
  end.

Definition no_candidate_message : str :=
  u "선택된 폴더에서 HWPX/hwtx 파일을 찾지 못했습니다.".

(** [for file in files] with [merged_pages] as accumulator. *)
Fixpoint gather_pages (files_ : list str) (merged_pages : list Element)
  : M (list Element) :=
  match files_ with
  | [] => ret merged_pages
  | file :: rest =>
      _ <- log_callback (file ++ u " 파일에서 페이지 추출 중...") ;;
      merged_pages <-
        try_except
          (r <- extract_hwpx_xml file ;;
           let '(tree, _) := r in
           let root := getroot tree in
           let pages := children root in
           copies <- deepcopy_list pages ;;
           ret (merged_pages ++ copies))
          (fun e =>
             _ <- log_callback (file ++ u " 파일에서 XML 추출 실패: "
                                  ++ exc_msg e) ;;
             ret merged_pages) ;;
      gather_pages rest merged_pages
  end.

Definition IndexError : PyExc :=
  mkExc (ascii_str "IndexError") (ascii_str "list index out of range") None.

Definition merge_hwpx_files (input_folder output_folder : str) : M unit :=
  names <- listdir input_folder ;;
  let files_ := candidate_files input_folder names in
  if negb (truthy files_) then log_callback no_candidate_message
  else
    let files_ := sorted_by id files_ in
    _ <- log_callback (u "총 " ++ of_N (N.of_nat (length files_))
                         ++ u "개의 파일을 병합합니다.") ;;
    match files_ with
    | [] => raise IndexError
    | first :: _ =>
        base <- try_except
                  (r <- extract_hwpx_xml first ;; ret (Some r))
                  (fun e =>
                     _ <- log_callback
                            (u "기본 파일의 XML 추출에 실패했습니다: "
                               ++ exc_msg e) ;;
                     ret None) ;;
        match base with
        | None => ret tt
        | Some (base_tree, xml_path) =>
            merged_pages <- gather_pages files_ [] ;;
            new_root <- ET_Element (tag (getroot base_tree))
                                   (attrib (getroot base_tree)) ;;
            let new_root := foldl append new_root merged_pages in
            let merged_tree := mkElementTree new_root in
            _ <- makedirs output_folder ;;
            let output_file :=
              path_join output_folder (ascii_str "merged.hwpx") in
            try_except
              (_ <- create_section_hwpx first merged_tree xml_path
                                        output_file ;;
               log_callback (u "병합된 파일이 '" ++ output_file
                               ++ u "' 에 저장되었습니다."))
              (fun e =>
                 log_callback (u "병합 파일 생성 중 오류 발생: "
                                 ++ exc_msg e))
        end
    end.
End Program.

(** ** The run of a merge, in closed form *)

Section MergeRun.
Context `{L : Library}.

(** For each file in turn, from the identity [n] on: the tree the
    accessor builds for it (none when the accessor raises) and the
    copies of its pages. *)
Fixpoint gather_trace (w : World) (files_ : list str) (n : nat)
  : list (option Element * list Element) * nat :=
  match files_ with
  | [] => ([], n)
  | file :: rest =>
      match read_document w file with
      | Ok d =>
          let '(tree, n1) := relabel d n in
          let '(copies, n2) := relabel_list (children tree) n1 in
          let '(trace, n3) := gather_trace w rest n2 in
          ((Some tree, copies) :: trace, n3)
      | Raise e =>
          let '(trace, n3) := gather_trace w rest n in
          ((None, []) :: trace, n3)
      end
  end.

(** The messages of the gathering loop: one per file, and a warning
    after it for a file the accessor refuses. *)
Definition gather_log (w : World) (files_ : list str) : list str :=
  flat_map (fun file =>
    (file ++ u " 파일에서 페이지 추출 중...")
    :: match read_document w file with
       | Ok _ => []
       | Raise e => [file ++ u " 파일에서 XML 추출 실패: "
                       ++ extract_error_prefix ++ exc_msg e]
       end) files_.

(** What the loop makes of one file: a tree and copies of its pages
    that are, identities aside, the parsed document and its pages; or
    nothing. *)
Definition gathered (w : World) (file : str)
           (entry : option Element * list Element) : Prop :=
  match read_document w file with
  | Ok d => exists tree, entry.1 = Some tree /\ strip tree = strip d
                         /\ map strip entry.2 = map strip (children d)
  | Raise _ => entry = (None, [])
  end.
End MergeRun.

(** The identities of all objects of a trace: source trees and copies. *)
Definition trace_oids (trace : list (option Element * list Element)) : list nat :=
  concat (map (fun entry => from_option oids [] entry.1
                            ++ concat (map oids entry.2)) trace).

(** ** Sample documents *)

Module Sample.
(** A page: a paragraph holding one run of text. *)
Definition page (i : nat) (t : string) : Element :=
  mkElement i (ascii_str "p") [(ascii_str "id", of_N (N.of_nat i))] None None
    [mkElement (100 + i) (ascii_str "t") [] (Some (ascii_str t)) None []].

Definition marker : str := ascii_str "[FORM]".

Definition P0 := page 1 "cover sheet".
Definition P1 := page 2 "[FORM] first".
Definition P2 := page 3 "body of the first".
Definition P3 := page 4 "see [FORM] second".
Definition P4 := page 5 "body of the second".

Definition root : Element :=
  mkElement 0 (ascii_str "sec") [(ascii_str "v", ascii_str "1")] None None
    [P0; P1; P2; P3; P4].
Definition tree : ElementTree := mkElementTree root.
End Sample.

(** ** A small library instance *)

(** A stand-in for the library, for concrete runs.  Method 0 stores the
    bytes as they are.  Method 8 puts in front of the data the level the
    writer compressed at, which the reader skips; the writer of this
    library works at level 6.  The parser reads an opening angle bracket
    followed by the text of the only page of a document. *)
Module Toy.
Definition unsupported : PyExc :=
  mkExc (ascii_str "NotImplementedError")
        (ascii_str "That compression method is not supported") None.
Definition bad_data : PyExc :=
  mkExc (ascii_str "zipfile.BadZipFile") (ascii_str "Bad data") None.

Definition deflate (m : Z) (d : list byte) : result (list byte) :=
  if (m =? 0)%Z then Ok d
  else if (m =? 8)%Z then Ok (x06 :: d)
  else Raise unsupported.

Definition inflate (m : Z) (s : list byte) : result (list byte) :=
  if (m =? 0)%Z then Ok s
  else if (m =? 8)%Z then
    match s with
    | _ :: d => Ok d
    | [] => Raise bad_data
    end
  else Raise unsupported.

Definition document (page_text : str) : Element :=
  mkElement 0 (ascii_str "sec") [(ascii_str "v", ascii_str "1")] None None
    [mkElement 0 (ascii_str "p") [] None None
       [mkElement 0 (ascii_str "t") [] (Some page_text) None []]].

Definition parse (data : list byte) : result Element :=
  match data with
  | x3c :: t => Ok (document (map Byte.to_N t))
  | [] => Raise (ParseError (ascii_str "no element found") 1 0)
  | _ => Raise (ParseError (ascii_str "syntax error") 1 0)
  end.

Definition os_error (cls : string) (path : str) : PyExc :=
  mkExc (ascii_str cls) path None.

Definition library : Library := {|
  compress := deflate;
  decompress := inflate;
  XMLParser := parse;
  open_error := os_error "FileNotFoundError";
  create_error := os_error "IsADirectoryError";
  makedirs_error := os_error "FileExistsError"
|}.

Definition bytes (s : string) : list byte := map ET.byte_of (ascii_str s).

Definition entry (name : string) (method : Z) : ZipInfo :=
  mkZipInfo (ascii_str name) (2024, 1, 2, 3, 4, 5) method [].

(** A document archive: a stored member, the content member, and a
    member compressed by a writer working at level 9. *)
Definition archive (page_text : string) : list Member :=
  [ mkMember (entry "mimetype" 0) (bytes "application/hwp+zip");
    mkMember (entry "Contents/section0.xml" 8) (x09 :: bytes ("<" ++ page_text));
    mkMember (entry "Contents/header.xml" 8) (x09 :: bytes "<head/>") ].

Definition world (fs : list (str * File)) (ds : list (str * list str)) : World :=
  mkWorld (list_to_map fs) (list_to_map ds) 1000 [].
End Toy.

(* ================================================================== *)
(** * Properties *)
(* ================================================================== *)

(** ** Strings *)

Lemma startswith_spec (s t : str) :
  startswith s t = true <-> exists b, s = t ++ b.
Proof.
  revert s; induction t as [|a t IH]; intros s; simpl.
  - split; [intros _; by exists s | by intros].
  - destruct s as [|b s].
    + split; [done | intros [r Hr]; discriminate Hr].
    + rewrite andb_true_iff, N.eqb_eq, IH. split.
      * intros [-> [r ->]]. by exists r.
      * intros [r Hr]. injection Hr as -> ->. eauto.
Qed.

Lemma contains_spec (t s : str) :
  contains t s = true <-> occurs_in t s.
Proof.
  unfold occurs_in. induction s as [|c s IH].
  - simpl. rewrite orb_false_r, startswith_spec. split.
    + intros [b Hb]. by exists [], b.
    + intros (a & b & Hab). symmetry in Hab.
      apply app_eq_nil in Hab as [-> Hab].
      apply app_eq_nil in Hab as [-> ->]. by exists [].
  - cbn [contains]. rewrite orb_true_iff, startswith_spec, IH. split.
    + intros [[b Hb] | (a & b & Hab)].
      * by exists [], b.
      * exists (c :: a), b. by rewrite Hab.
    + intros (a & b & Hab). destruct a as [|c' a].
      * left. by exists b.
      * right. injection Hab as _ ->. eauto.
Qed.

Lemma contains_empty (s : str) : contains [] s = true.
Proof. by destruct s. Qed.

(** ** Trees *)

(** Induction on a tree, with the hypothesis for every child. *)
Lemma Element_ind' (P : Element -> Prop) :
  (forall i tg at_ tx tl cs, Forall P cs -> P (mkElement i tg at_ tx tl cs)) ->
  forall e, P e.
Proof.
  intros H. fix IH 1. intros [i tg at_ tx tl cs]. apply H.
  revert cs. fix IHcs 1. intros [|c cs].
  - constructor.
  - constructor; [apply IH | apply IHcs].
Qed.

Lemma strip_fields e :
  tag (strip e) = tag e /\ attrib (strip e) = attrib e
  /\ text (strip e) = text e /\ tail (strip e) = tail e
  /\ children (strip e) = map strip (children e).
Proof. by destruct e. Qed.

Lemma strip_eq_fields e e' :
  strip e = strip e' ->
  tag e = tag e' /\ attrib e = attrib e' /\ text e = text e' /\ tail e = tail e'
  /\ map strip (children e) = map strip (children e').
Proof.
  intros H.
  destruct (strip_fields e) as (<- & <- & <- & <- & <-).
  destruct (strip_fields e') as (<- & <- & <- & <- & <-).
  by rewrite H.
Qed.

Lemma strip_idemp e : strip (strip e) = strip e.
Proof.
  induction e as [i tg at_ tx tl cs IH] using Element_ind'.
  simpl. f_equal. rewrite map_map.
  induction IH as [|c cs Hc _ IHcs]; [done|]. simpl. by rewrite Hc, IHcs.
Qed.

Lemma itertext_strip e : itertext (strip e) = itertext e.
Proof.
  induction e as [i tg at_ tx tl cs IH] using Element_ind'.
  simpl. f_equal. f_equal. rewrite map_map.
  induction IH as [|c cs Hc _ IHcs]; [done|]. simpl.
  rewrite Hc, IHcs. by destruct c.
Qed.

Lemma page_text_strip e : page_text (strip e) = page_text e.
Proof. unfold page_text. by rewrite itertext_strip. Qed.

Lemma page_text_same_shape e e' : strip e = strip e' -> page_text e = page_text e'.
Proof. intros H. by rewrite <- (page_text_strip e), H, page_text_strip. Qed.

Lemma relabel_unfold i tg at_ tx tl cs n :
  relabel (mkElement i tg at_ tx tl cs) n
  = let '(cs', n') := relabel_list cs (S n) in
    (mkElement n tg at_ tx tl cs', n').
Proof. reflexivity. Qed.

(** What a copy is: the same tree, on the next [size] identities. *)
Definition fresh_copy (e : Element) (n : nat) (r : Element * nat) : Prop :=
  r.2 = (n + size e)%nat /\ oids r.1 = seq n (size e) /\ strip r.1 = strip e.

Definition fresh_copies (l : list Element) (n : nat) (r : list Element * nat) : Prop :=
  r.2 = (n + list_sum (map size l))%nat
  /\ concat (map oids r.1) = seq n (list_sum (map size l))
  /\ map strip r.1 = map strip l.

Lemma relabel_list_fresh l :
  Forall (fun e => forall n, fresh_copy e n (relabel e n)) l ->
  forall n, fresh_copies l n (relabel_list l n).
Proof.
  induction 1 as [|c l Hc _ IH]; intros n.
  - unfold fresh_copies. simpl. by rewrite Nat.add_0_r.
  - simpl. destruct (Hc n) as (H1 & H2 & H3).
    destruct (relabel c n) as [c' n1]. simpl in H1, H2, H3. subst n1.
    destruct (IH (n + size c)%nat) as (G1 & G2 & G3).
    destruct (relabel_list l (n + size c)) as [l' n2]. simpl in G1, G2, G3.
    unfold fresh_copies. simpl. split; [lia|]. split.
    + by rewrite H2, G2, seq_app.
    + by rewrite H3, G3.
Qed.

Lemma relabel_fresh e : forall n, fresh_copy e n (relabel e n).
Proof.
  induction e as [i tg at_ tx tl cs IH] using Element_ind'. intros n.
  rewrite relabel_unfold.
  destruct (relabel_list_fresh cs IH (S n)) as (G1 & G2 & G3).
  destruct (relabel_list cs (S n)) as [cs' n']. simpl in G1, G2, G3.
  unfold fresh_copy. simpl. split; [lia|]. split.
  - by rewrite G2.
  - by rewrite G3.
Qed.

Lemma relabel_list_fresh' l n : fresh_copies l n (relabel_list l n).
Proof.
  apply relabel_list_fresh, Forall_forall. intros e _. apply relabel_fresh.
Qed.

(** ** The segmentation loop *)

Section SegmentFacts.
Context {A : Type} (has_marker : A -> bool).

(** A section as the loop builds it: a marked page followed by
    unmarked ones. *)
Definition section_shape (sec : list A) : Prop :=
  exists p rest, sec = p :: rest /\ has_marker p = true /\
                 Forall (fun q => has_marker q = false) rest.

Lemma concat_snoc (ss : list (list A)) (s : list A) :
  concat (ss ++ [s]) = concat ss ++ s.
Proof. by rewrite concat_app; simpl; rewrite app_nil_r. Qed.

Lemma split_loop_open pages : forall ss cur,
  cur <> [] ->
  concat (close_section (split_loop has_marker pages ss cur))
  = concat ss ++ cur ++ pages.
Proof.
  induction pages as [|p pages IH]; intros ss cur Hcur.
  - unfold close_section; simpl.
    destruct cur; [done|]. simpl. by rewrite concat_snoc, app_nil_r.
  - simpl. destruct cur as [|c cur]; [done|]. simpl.
    destruct (has_marker p).
    + rewrite IH by done. rewrite concat_snoc. by rewrite <- ?app_assoc.
    + rewrite IH by done. simpl. by rewrite <- ?app_assoc.
Qed.

Lemma split_loop_closed pages : forall ss,
  exists tl,
    concat (close_section (split_loop has_marker pages ss [])) = concat ss ++ tl
    /\ pages = leading_unmarked has_marker pages ++ tl.
Proof.
  induction pages as [|p pages IH]; intros ss.
  - exists []. unfold close_section; simpl. by rewrite app_nil_r.
  - simpl. destruct (has_marker p) eqn:Hp.
    + exists (p :: pages). split; [|done].
      by rewrite split_loop_open.
    + destruct (IH ss) as (tl & Hc & Hl). exists tl. split; [done|].
      simpl. by rewrite <- Hl.
Qed.

Lemma segment_concat pages :
  leading_unmarked has_marker pages ++ concat (segment has_marker pages) = pages.
Proof.
  unfold segment. destruct (split_loop_closed pages []) as (tl & -> & Hl).
  simpl. by rewrite <- Hl.
Qed.

Lemma section_shape_snoc sec p :
  section_shape sec -> has_marker p = false -> section_shape (sec ++ [p]).
Proof.
  intros (q & rest & -> & Hq & Hrest) Hp. exists q, (rest ++ [p]).
  split; [done|]. split; [done|]. apply Forall_app. split; [done|].
  by constructor.
Qed.

Lemma split_loop_shape pages : forall ss cur,
  Forall section_shape ss -> (cur = [] \/ section_shape cur) ->
  Forall section_shape (close_section (split_loop has_marker pages ss cur)).
Proof.
  induction pages as [|p pages IH]; intros ss cur Hss Hcur.
  - unfold close_section; simpl. destruct cur as [|c cur]; simpl; [done|].
    destruct Hcur as [Hcur|Hcur]; [done|].
    apply Forall_app. split; [done|]. by constructor.
  - simpl. destruct (has_marker p) eqn:Hp.
    + apply IH.
      * destruct cur as [|c cur]; simpl; [done|].
        destruct Hcur as [Hcur|Hcur]; [done|].
        apply Forall_app. split; [done|]. by constructor.
      * right. exists p, []. by repeat split.
    + apply IH; [done|].
      destruct cur as [|c cur]; simpl; [by left|].
      destruct Hcur as [Hcur|Hcur]; [done|].
      right. by apply (section_shape_snoc (c :: cur)).
Qed.

Lemma segment_shape pages : Forall section_shape (segment has_marker pages).
Proof. apply split_loop_shape; [constructor | by left]. Qed.

Lemma split_loop_no_match pages : forall ss,
  Forall (fun p => has_marker p = false) pages ->
  split_loop has_marker pages ss [] = (ss, []).
Proof.
  induction pages as [|p pages IH]; intros ss Hall; [done|].
  inversion Hall as [|? ? Hp Hrest]; subst. simpl. rewrite Hp. simpl.
  by apply IH.
Qed.

Lemma segment_no_match pages :
  Forall (fun p => has_marker p = false) pages -> segment has_marker pages = [].
Proof. intros H. unfold segment. by rewrite split_loop_no_match. Qed.

Lemma segment_nil_no_match pages :
  segment has_marker pages = [] ->
  Forall (fun p => has_marker p = false) pages.
Proof.
  intros Hnil. pose proof (segment_concat pages) as Hc.
  rewrite Hnil in Hc. simpl in Hc. rewrite app_nil_r in Hc.
  clear Hnil. induction pages as [|p pages IH]; [constructor|].
  simpl in Hc. destruct (has_marker p) eqn:Hp; [done|].
  injection Hc as Hc. constructor; [done | by apply IH].
Qed.

Lemma split_loop_all_match pages : forall ss cur,
  Forall (fun p => has_marker p = true) pages ->
  close_section (split_loop has_marker pages ss cur)
  = close_section (ss, cur) ++ map (fun p => [p]) pages.
Proof.
  induction pages as [|p pages IH]; intros ss cur Hall.
  - simpl. by rewrite app_nil_r.
  - inversion Hall as [|? ? Hp Hrest]; subst. simpl. rewrite Hp.
    rewrite IH by done. unfold close_section at 1. simpl.
    unfold close_section. simpl. by rewrite <- app_assoc.
Qed.
End SegmentFacts.

(** Sections whose concatenation has no repeated identity are pairwise
    disjoint. *)
Lemma concat_NoDup_disjoint {A B} (f : A -> B) (l : list (list A)) :
  NoDup (map f (concat l)) ->
  forall i j s s' p q, i <> j -> l !! i = Some s -> l !! j = Some s' ->
    p ∈ s -> q ∈ s' -> f p <> f q.
Proof.
  assert (Hlt : forall (l : list (list A)), NoDup (map f (concat l)) ->
            forall i j s s' p q, (i < j)%nat -> l !! i = Some s ->
              l !! j = Some s' -> p ∈ s -> q ∈ s' -> f p <> f q).
  { clear l. induction l as [|a l IH]; intros Hnd i j s s' p q Hij Hi Hj Hp Hq.
    - by rewrite lookup_nil in Hi.
    - simpl in Hnd. rewrite map_app in Hnd.
      apply NoDup_app in Hnd as (Ha & Hdisj & Hl).
      destruct i as [|i], j as [|j]; try lia.
      + simpl in Hi, Hj. injection Hi as ->. intros Heq.
        apply (Hdisj (f p)).
        * apply list_elem_of_fmap. eauto.
        * rewrite Heq. apply list_elem_of_fmap. exists q. split; [done|].
          apply list_elem_of_In, in_concat. exists s'.
          split; apply list_elem_of_In; [|done].
          by apply list_elem_of_lookup_2 in Hj.
      + simpl in Hi, Hj. apply (IH Hl i j s s' p q); [lia|done..]. }
  intros Hnd i j s s' p q Hij Hi Hj Hp Hq.
  destruct (decide (i < j)%nat) as [Hlt'|Hge].
  - by apply (Hlt l Hnd i j s s' p q).
  - intros Heq. symmetry in Heq. revert Heq.
    apply (Hlt l Hnd j i s' s q p); [lia|done..].
Qed.

(** ** Claims about [split_by_template] *)

Lemma marker_in_occurs template page :
  marker_in template page = true <-> occurs_in template (page_text page).
Proof. apply contains_spec. Qed.

Lemma marker_in_not_occurs template page :
  marker_in template page = false <-> ~ occurs_in template (page_text page).
Proof. rewrite <- marker_in_occurs. by destruct (marker_in template page). Qed.

Lemma slice_from_nonneg {A} (l : list A) (k : Z) :
  (0 <= k)%Z -> take (Z.to_nat k) l ++ slice_from l k = l.
Proof.
  intros Hk. unfold slice_from.
  destruct (0 <=? k)%Z eqn:E; [|lia]. apply take_drop.
Qed.

(** C2 (segmentation completeness).  For a non-negative skip count the
    pages removed by the slice, the pages in front of the first match
    and the pages of the sections, in this order, are exactly the
    children of the root; hence the three groups taken together are a
    rearrangement of the page sequence, and when the children are
    distinct objects no page lies in two sections. *)
Theorem split_by_template_partition tree template skip_pages :
  (0 <= skip_pages)%Z ->
  let pages := children (getroot tree) in
  let sections := split_by_template tree template skip_pages in
  let skipped := skipped_pages tree skip_pages in
  let orphans := orphan_pages tree template skip_pages in
  skipped ++ orphans ++ concat sections = pages
  /\ concat sections ++ skipped ++ orphans ≡ₚ pages
  /\ (NoDup (map oid pages) ->
      NoDup (map oid (concat sections))
      /\ forall i j s s' p q, i <> j ->
           sections !! i = Some s -> sections !! j = Some s' ->
           p ∈ s -> q ∈ s' -> oid p <> oid q).
Proof.
  intros Hskip pages sections skipped orphans.
  assert (Heq : skipped ++ orphans ++ concat sections = pages).
  { subst skipped orphans sections. unfold skipped_pages, orphan_pages,
      split_by_template. rewrite segment_concat. by apply slice_from_nonneg. }
  split; [done|]. split.
  - transitivity (skipped ++ orphans ++ concat sections); [|by rewrite Heq].
    rewrite (app_assoc skipped). apply Permutation_app_comm.
  - intros Hnd.
    assert (Hs : NoDup (map oid (concat sections))).
    { rewrite <- Heq, !map_app in Hnd.
      apply NoDup_app in Hnd as (_ & _ & Hnd).
      by apply NoDup_app in Hnd as (_ & _ & Hnd). }
    split; [done|]. by apply concat_NoDup_disjoint.
Qed.

Lemma split_by_template_partition_witness :
  (0 <= 1)%Z
  /\ NoDup (map oid (children (getroot Sample.tree)))
  /\ [Sample.P0] ++ [] ++ concat (split_by_template Sample.tree Sample.marker 1)
     = children (getroot Sample.tree)
  /\ NoDup (map oid (concat (split_by_template Sample.tree Sample.marker 1))).
Proof.
  assert (Hnd : NoDup (map oid (children (getroot Sample.tree)))).
  { compute_done. }
  split; [lia|]. split; [done|].
  destruct (split_by_template_partition Sample.tree Sample.marker 1)
    as (H1 & _ & H3); [lia|].
  split; [exact H1 | exact (proj1 (H3 Hnd))].
Defined.

(** C4 (scenario).  Five pages, one skipped, the marker in the text of
    the second and the fourth only: the result is the two sections
    [[P1, P2]] and [[P3, P4]], and the first page is in neither. *)
Theorem split_by_template_scenario i t a tx tl P0 P1 P2 P3 P4 template :
  let tree := mkElementTree (mkElement i t a tx tl [P0; P1; P2; P3; P4]) in
  occurs_in template (page_text P1) ->
  occurs_in template (page_text P3) ->
  ~ occurs_in template (page_text P0) ->
  ~ occurs_in template (page_text P2) ->
  ~ occurs_in template (page_text P4) ->
  NoDup (map oid [P0; P1; P2; P3; P4]) ->
  split_by_template tree template 1 = [[P1; P2]; [P3; P4]]
  /\ forall sec q, sec ∈ split_by_template tree template 1 -> q ∈ sec ->
       oid q <> oid P0.
Proof.
  intros tree H1 H3 H0 H2 H4 Hnd.
  apply marker_in_occurs in H1, H3.
  apply marker_in_not_occurs in H0, H2, H4.
  assert (Hres : split_by_template tree template 1 = [[P1; P2]; [P3; P4]]).
  { unfold split_by_template, segment, close_section. simpl.
    by rewrite H1, H2, H3, H4. }
  split; [done|]. rewrite Hres. intros sec q Hsec Hq Heq.
  simpl in Hnd. apply NoDup_cons in Hnd as [Hnotin _].
  apply Hnotin. rewrite <- Heq.
  assert (Hin : q ∈ [P1; P2; P3; P4]).
  { apply list_elem_of_In in Hsec, Hq. apply list_elem_of_In.
    simpl in Hsec. destruct Hsec as [<-|[<-|[]]]; simpl in Hq |- *; tauto. }
  apply (list_elem_of_fmap_2 oid) in Hin. exact Hin.
Qed.

Lemma split_by_template_scenario_witness :
  split_by_template Sample.tree Sample.marker 1
  = [[Sample.P1; Sample.P2]; [Sample.P3; Sample.P4]].
Proof.
  refine (proj1 (split_by_template_scenario 0 (ascii_str "sec")
            [(ascii_str "v", ascii_str "1")] None None
            Sample.P0 Sample.P1 Sample.P2 Sample.P3 Sample.P4 Sample.marker
            _ _ _ _ _ _)).
  - apply marker_in_occurs. by vm_compute.
  - apply marker_in_occurs. by vm_compute.
  - apply marker_in_not_occurs. by vm_compute.
  - apply marker_in_not_occurs. by vm_compute.
  - apply marker_in_not_occurs. by vm_compute.
  - compute_done.
Defined.

(** C9 (shape of a section).  Every section returned is non-empty, the
    text of its first page contains the marker and the text of each of
    its other pages does not. *)
Theorem split_by_template_section_shape tree template skip_pages :
  Forall (fun sec => exists first rest,
            sec = first :: rest
            /\ occurs_in template (page_text first)
            /\ Forall (fun q => ~ occurs_in template (page_text q)) rest)
         (split_by_template tree template skip_pages).
Proof.
  unfold split_by_template.
  eapply Forall_impl; [apply (segment_shape (marker_in template))|].
  intros sec (first & rest & -> & Hf & Hrest). exists first, rest.
  split; [done|]. split; [by apply marker_in_occurs|].
  eapply Forall_impl; [exact Hrest|].
  intros q Hq. by apply marker_in_not_occurs.
Qed.

(** C10 (empty marker).  With the empty string as marker every page
    that remains after the slice starts a section of its own. *)
Theorem split_by_template_empty_marker tree skip_pages :
  split_by_template tree [] skip_pages
  = map (fun page => [page]) (slice_from (children (getroot tree)) skip_pages).
Proof.
  unfold split_by_template, segment.
  rewrite split_loop_all_match; [done|].
  apply Forall_forall. intros page _. unfold marker_in. apply contains_empty.
Qed.

(** ** Claims about [extract_hwpx_xml] *)

Section Extract.
Context `{L : Library}.

(** [extract_hwpx_xml] parses the content member into new objects, or
    wraps the exception of the first step that fails. *)
Lemma extract_hwpx_xml_run path w :
  extract_hwpx_xml path w
  = match read_document w path with
    | Ok d => (Ok (mkElementTree (relabel d (next_oid w)).1, section0),
               mkWorld (files w) (dirs w) (relabel d (next_oid w)).2 (log w))
    | Raise e => (Raise (Exception (extract_error_prefix ++ exc_msg e) e), w)
    end.
Proof.
  unfold extract_hwpx_xml, read_document, try_except, bind, zip_open.
  destruct (files w !! path) as [[z|e]|]; [|done..].
  destruct (bool_decide (section0 ∈ namelist z)); [|done].
  unfold lift. destruct (zip_read z section0) as [data|e]; [|done].
  cbn [rbind]. unfold ET_parse, bind, lift.
  destruct (XMLParser data) as [d|e]; [|done].
  unfold allocate, ret. by destruct (relabel d (next_oid w)).
Qed.

(** The decimal form of a number ends in a digit. *)
Lemma pretty_N_go_suffix x :
  forall s, exists p, ascii_str (pretty.pretty_N_go x s) = p ++ ascii_str s.
Proof.
  induction (N.lt_wf_0 x) as [x _ IH]. intros s.
  destruct (decide (0 < x)) as [Hx|Hx].
  - rewrite pretty.pretty_N_go_step by done.
    destruct (IH (x `div` 10)) with (s := String (pretty.pretty_N_char (x `mod` 10)) s)
      as [p Hp]; [by apply N.div_lt|].
    exists (p ++ [N_of_ascii (pretty.pretty_N_char (x `mod` 10))]).
    rewrite Hp. by rewrite <- app_assoc.
  - assert (x = 0) as -> by lia. exists []. by rewrite pretty.pretty_N_go_0.
Qed.

Lemma of_N_last_digit n :
  exists p d, of_N n = p ++ [d] /\ 48 <= d <= 57.
Proof.
  unfold of_N, pretty, pretty.pretty_N. destruct (decide (n = 0)) as [->|Hn].
  - exists [], 48. split; [done | lia].
  - rewrite pretty.pretty_N_go_step by lia.
    destruct (pretty_N_go_suffix (n `div` 10)
                (String (pretty.pretty_N_char (n `mod` 10)) "")) as [p ->].
    exists p, (N_of_ascii (pretty.pretty_N_char (n `mod` 10))).
    split; [done|]. unfold pretty.pretty_N_char.
    repeat case_match; simpl; lia.
Qed.

Lemma ParseError_message_ends_in_digit error_string line column :
  exists p d, exc_msg (ParseError error_string line column) = p ++ [d]
              /\ 48 <= d <= 57.
Proof.
  destruct (of_N_last_digit column) as (p & d & Hp & Hd).
  exists (error_string ++ ascii_str ": line " ++ of_N line
            ++ ascii_str ", column " ++ p), d.
  split; [|done]. unfold ParseError. cbn [exc_msg]. rewrite Hp.
  by rewrite <- !app_assoc.
Qed.

Lemma missing_member_message_ends_in_stop :
  exists p, missing_member_message section0 = p ++ [46].
Proof. exists (removelast (missing_member_message section0)). by vm_compute. Qed.

(** C5 (two failures the caller can tell apart).  On an archive without
    the content member and on an archive whose content member the
    parser rejects with a [ParseError], the accessor raises; both
    exceptions are of class [Exception], but they differ: in the
    exception they were raised from, and in their message, which is what
    the callers print. *)
Theorem extract_hwpx_xml_errors_distinct
        w1 path1 z1 w2 path2 z2 data error_string line column :
  files w1 !! path1 = Some (Archive z1) ->
  section0 ∉ namelist z1 ->
  files w2 !! path2 = Some (Archive z2) ->
  section0 ∈ namelist z2 ->
  zip_read z2 section0 = Ok data ->
  XMLParser data = Raise (ParseError error_string line column) ->
  exists e1 e2,
    extract_hwpx_xml path1 w1 = (Raise e1, w1)
    /\ extract_hwpx_xml path2 w2 = (Raise e2, w2)
    /\ exc_context e1 = Some (FileNotFoundError (missing_member_message section0))
    /\ exc_context e2 = Some (ParseError error_string line column)
    /\ exc_msg e1 = extract_error_prefix ++ missing_member_message section0
    /\ exc_msg e2 = extract_error_prefix
                      ++ exc_msg (ParseError error_string line column)
    /\ exc_msg e1 <> exc_msg e2
    /\ e1 <> e2.
Proof.
  intros Hf1 Hno Hf2 Hin Hread Hparse.
  exists (Exception (extract_error_prefix ++ missing_member_message section0)
                    (FileNotFoundError (missing_member_message section0))),
         (Exception (extract_error_prefix
                       ++ exc_msg (ParseError error_string line column))
                    (ParseError error_string line column)).
  assert (Hmsg : extract_error_prefix ++ missing_member_message section0
                 <> extract_error_prefix
                      ++ exc_msg (ParseError error_string line column)).
  { intros Heq. apply app_inv_head in Heq.
    destruct missing_member_message_ends_in_stop as (p & Hp).
    destruct (ParseError_message_ends_in_digit error_string line column)
      as (q & d & Hq & Hd).
    rewrite Hp, Hq in Heq. apply app_inj_tail in Heq as [_ <-]. lia. }
  split; [|split; [|split; [|split; [|split; [|split; [|split]]]]]].
  - rewrite extract_hwpx_xml_run. unfold read_document. rewrite Hf1.
    rewrite bool_decide_eq_false_2 by exact Hno. reflexivity.
  - rewrite extract_hwpx_xml_run. unfold read_document. rewrite Hf2.
    rewrite bool_decide_eq_true_2 by exact Hin. rewrite Hread. cbn [rbind].
    rewrite Hparse. reflexivity.
  - reflexivity.
  - reflexivity.
  - reflexivity.
  - reflexivity.
  - exact Hmsg.
  - intros Heq. apply Hmsg. by injection Heq.
Qed.
End Extract.

(** ** Claims about [create_section_hwpx] *)

Section Rewrite.
Context `{Laws : LibraryLaws}.




End Rewrite.

#[global] Instance toy_laws : LibraryLaws Toy.library.
Proof.
  split.
  - intros m d s. simpl. unfold Toy.deflate, Toy.inflate.
    destruct (m =? 0)%Z; [congruence|].
    destruct (m =? 8)%Z; [|done]. by intros [= <-].
  - intros m s d d'. simpl. unfold Toy.deflate, Toy.inflate.
    destruct (m =? 0)%Z; [eauto|]. destruct (m =? 8)%Z; [eauto|done].
Qed.



Lemma extract_hwpx_xml_errors_distinct_witness :
  exists e1 e2,
    extract_hwpx_xml (L:=Toy.library) (ascii_str "a.hwpx")
      (Toy.world [(ascii_str "a.hwpx",
                   Archive [mkMember (Toy.entry "mimetype" 0) (Toy.bytes "text/plain")])] [])
    = (Raise e1,
       Toy.world [(ascii_str "a.hwpx",
                   Archive [mkMember (Toy.entry "mimetype" 0) (Toy.bytes "text/plain")])] [])
    /\ extract_hwpx_xml (L:=Toy.library) (ascii_str "b.hwpx")
         (Toy.world [(ascii_str "b.hwpx",
                      Archive [mkMember (Toy.entry "Contents/section0.xml" 0)
                                        (Toy.bytes "no markup")])] [])
       = (Raise e2,
          Toy.world [(ascii_str "b.hwpx",
                      Archive [mkMember (Toy.entry "Contents/section0.xml" 0)
                                        (Toy.bytes "no markup")])] [])
    /\ exc_msg e1 <> exc_msg e2
    /\ e1 <> e2.
Proof.
  destruct (extract_hwpx_xml_errors_distinct (L:=Toy.library)
    (Toy.world [(ascii_str "a.hwpx",
                 Archive [mkMember (Toy.entry "mimetype" 0) (Toy.bytes "text/plain")])] [])
    (ascii_str "a.hwpx")
    [mkMember (Toy.entry "mimetype" 0) (Toy.bytes "text/plain")]
    (Toy.world [(ascii_str "b.hwpx",
                 Archive [mkMember (Toy.entry "Contents/section0.xml" 0)
                                   (Toy.bytes "no markup")])] [])
    (ascii_str "b.hwpx")
    [mkMember (Toy.entry "Contents/section0.xml" 0) (Toy.bytes "no markup")]
    (Toy.bytes "no markup") (ascii_str "syntax error") 1 0)
    as (e1 & e2 & H1 & H2 & _ & _ & _ & _ & Hm & He).
  - by vm_compute.
  - compute_done.
  - by vm_compute.
  - compute_done.
  - by vm_compute.
  - by vm_compute.
  - by exists e1, e2.
Defined.

(** ** Claims about [process_file] and [merge_hwpx_files] *)

Lemma marker_in_same_shape t e e' :
  strip e = strip e' -> marker_in t e = marker_in t e'.
Proof. intros H. unfold marker_in. by rewrite (page_text_same_shape e e'). Qed.

Lemma slice_from_map {A B} (f : A -> B) (l : list A) (k : Z) :
  slice_from (map f l) k = map f (slice_from l k).
Proof. unfold slice_from. rewrite length_map. by destruct (0 <=? k)%Z; rewrite skipn_map. Qed.

Lemma no_marker_same_shape t k (l l' : list Element) :
  map strip l' = map strip l ->
  Forall (fun p => marker_in t p = false) (slice_from l k) ->
  Forall (fun p => marker_in t p = false) (slice_from l' k).
Proof.
  intros Hshape Hall.
  assert (Hs : forall l0, Forall (fun p => marker_in t p = false) l0
                 <-> Forall (fun p => marker_in t p = false) (map strip l0)).
  { intros l0. rewrite Forall_map. apply Forall_iff. intros p.
    by rewrite (marker_in_same_shape t (strip p) p) by apply strip_idemp. }
  apply (proj2 (Hs _)). rewrite <- slice_from_map, Hshape, slice_from_map.
  apply (proj1 (Hs _)). exact Hall.
Qed.

Section Orchestration.
Context `{L : Library}.

Lemma read_document_files w w' path :
  files w' = files w -> read_document w' path = read_document w path.
Proof. intros H. unfold read_document. by rewrite H. Qed.

Lemma relabel_children root n :
  map strip (children (relabel root n).1) = map strip (children root).
Proof.
  destruct root as [i tg at_ tx tl cs]. rewrite relabel_unfold.
  destruct (relabel_list_fresh' cs (S n)) as (_ & _ & H).
  by destruct (relabel_list cs (S n)).
Qed.

(** C6 (no match).  The input is a document the accessor can read, and
    after the slice no page has the marker in its text.  Then the
    segmentation of the extracted tree is empty, and [process_file]
    returns normally with the files and directories as they were and
    three messages added to the log, the last one saying that no page
    with the marker was found. *)
Theorem process_file_no_match
        w input_file output_dir template skip_pages root :
  read_document w input_file = Ok root ->
  Forall (fun page => ~ occurs_in template (page_text page))
         (slice_from (children root) skip_pages) ->
  split_by_template (mkElementTree (relabel root (next_oid w)).1)
                    template skip_pages = []
  /\ process_file input_file output_dir template skip_pages w
     = (Ok tt,
        mkWorld (files w) (dirs w) (relabel root (next_oid w)).2
                (log w ++ [u "XML 파일 추출 중...";
                           u "분리 기준에 따라 페이지 분리 중...";
                           no_boundary_message template])).
Proof.
  intros Hdoc Hnone.
  assert (Hsplit : split_by_template (mkElementTree (relabel root (next_oid w)).1)
                     template skip_pages = []).
  { unfold split_by_template. cbn [getroot]. apply segment_no_match.
    apply (no_marker_same_shape template skip_pages (children root));
      [apply relabel_children|].
    eapply Forall_impl; [exact Hnone|]. intros page Hp.
    by apply marker_in_not_occurs. }
  split; [done|].
  unfold process_file, try_except, bind, log_callback.
  rewrite extract_hwpx_xml_run. cbn [files dirs next_oid log].
  rewrite (read_document_files w) by done. rewrite Hdoc.
  unfold ret. cbn [files dirs next_oid log]. rewrite Hsplit.
  cbn [truthy negb files dirs next_oid log]. rewrite <- !app_assoc.
  cbn [app]. reflexivity.
Qed.

Lemma candidate_files_none input_folder names :
  Forall (fun file => is_candidate file = false) names ->
  candidate_files input_folder names = [].
Proof.
  induction 1 as [|file names Hfile _ IH]; [done|].
  simpl. by rewrite Hfile.
Qed.

(** C8 (nothing to merge).  When no name in the input folder ends in a
    recognised extension, [merge_hwpx_files] returns normally after
    one message; no file is written and no directory is created. *)
Theorem merge_hwpx_files_no_candidates w input_folder output_folder names :
  dirs w !! input_folder = Some names ->
  Forall (fun file => is_candidate file = false) names ->
  merge_hwpx_files input_folder output_folder w
  = (Ok tt, mkWorld (files w) (dirs w) (next_oid w)
                    (log w ++ [no_candidate_message])).
Proof.
  intros Hdir Hnone. unfold merge_hwpx_files, bind, listdir.
  rewrite Hdir. by rewrite candidate_files_none.
Qed.
End Orchestration.

Lemma process_file_no_match_witness :
  process_file (L:=Toy.library) (ascii_str "in/doc.hwpx") (ascii_str "out")
    Sample.marker 0
    (Toy.world [(ascii_str "in/doc.hwpx", Archive (Toy.archive "plain text"))] [])
  = (Ok tt,
     mkWorld (list_to_map [(ascii_str "in/doc.hwpx", Archive (Toy.archive "plain text"))])
             (list_to_map []) 1003
             [u "XML 파일 추출 중...";
              u "분리 기준에 따라 페이지 분리 중...";
              no_boundary_message Sample.marker]).
Proof.
  refine (proj2 (process_file_no_match (L:=Toy.library)
    (Toy.world [(ascii_str "in/doc.hwpx", Archive (Toy.archive "plain text"))] [])
    (ascii_str "in/doc.hwpx") (ascii_str "out") Sample.marker 0
    (Toy.document (ascii_str "plain text")) _ _)).
  - by vm_compute.
  - repeat constructor. apply marker_in_not_occurs. by vm_compute.
Defined.

Lemma merge_hwpx_files_no_candidates_witness :
  merge_hwpx_files (L:=Toy.library) (ascii_str "in") (ascii_str "out")
    (Toy.world [] [(ascii_str "in", [ascii_str "notes.txt"; ascii_str "hwpx"])])
  = (Ok tt,
     mkWorld (list_to_map [])
             (list_to_map [(ascii_str "in", [ascii_str "notes.txt"; ascii_str "hwpx"])])
             1000 [no_candidate_message]).
Proof.
  apply (merge_hwpx_files_no_candidates (L:=Toy.library)
           (Toy.world [] [(ascii_str "in", [ascii_str "notes.txt"; ascii_str "hwpx"])])
           (ascii_str "in") (ascii_str "out")
           [ascii_str "notes.txt"; ascii_str "hwpx"]).
  - by vm_compute.
  - by repeat constructor.
Defined.

(** ** Sorting *)

Lemma leb_refl a : leb a a = true.
Proof. induction a as [|x a IH]; [done|]. simpl. by rewrite N.eqb_refl, IH, orb_true_r. Qed.

Lemma leb_total a : forall b, leb a b = true \/ leb b a = true.
Proof.
  induction a as [|x a IH]; intros [|y b]; simpl; auto.
  destruct (N.lt_trichotomy x y) as [H|[->|H]].
  - left. apply N.ltb_lt in H. by rewrite H.
  - rewrite N.eqb_refl. destruct (IH b) as [->| ->]; rewrite ?orb_true_r; auto.
  - right. apply N.ltb_lt in H. by rewrite H.
Qed.

Lemma leb_trans a : forall b c, leb a b = true -> leb b c = true -> leb a c = true.
Proof.
  induction a as [|x a IH]; intros [|y b] [|z c]; simpl; try done.
  rewrite !orb_true_iff, !andb_true_iff, !N.ltb_lt, !N.eqb_eq.
  intros [H1|[-> H1]] [H2|[-> H2]].
  - left. lia.
  - by left.
  - by left.
  - right. split; [done|]. by apply (IH b c).
Qed.

Section SortedBy.
Context {A : Type} (key : A -> str).

Definition key_le (x y : A) : Prop := leb (key x) (key y) = true.

Lemma insert_by_perm x l : insert_by key x l ≡ₚ x :: l.
Proof.
  induction l as [|y l IH]; [done|]. simpl.
  destruct (leb (key x) (key y)); [done|].
  rewrite IH. apply Permutation_swap.
Qed.

Lemma sorted_by_perm l : sorted_by key l ≡ₚ l.
Proof.
  induction l as [|x l IH]; [done|]. unfold sorted_by. simpl.
  rewrite insert_by_perm. by constructor.
Qed.

Lemma insert_by_sorted x l :
  Sorted key_le l -> Sorted key_le (insert_by key x l).
Proof.
  induction 1 as [|y l Hs IH Hhd]; simpl.
  - by repeat constructor.
  - destruct (leb (key x) (key y)) eqn:E.
    + constructor; [by constructor|]. by constructor.
    + constructor; [done|].
      assert (Hyx : key_le y x).
      { unfold key_le. by destruct (leb_total (key x) (key y)) as [H|H]; [congruence|]. }
      destruct l as [|z l]; simpl.
      * by constructor.
      * destruct (leb (key x) (key z)); constructor; [done|].
        by inversion Hhd.
Qed.

Lemma sorted_by_sorted l : Sorted key_le (sorted_by key l).
Proof.
  induction l as [|x l IH]; [constructor|]. by apply insert_by_sorted.
Qed.
End SortedBy.

(** ** The gathering loop of [merge_hwpx_files] *)

Section Gather.
Context `{L : Library}.

Lemma deepcopy_list_run l w :
  deepcopy_list l w
  = (Ok (relabel_list l (next_oid w)).1,
     mkWorld (files w) (dirs w) (relabel_list l (next_oid w)).2 (log w)).
Proof.
  revert w. induction l as [|e l IH]; intros w.
  - by destruct w.
  - cbn [deepcopy_list relabel_list]. unfold bind, deepcopy, allocate.
    destruct (relabel e (next_oid w)) as [e' n1]. rewrite IH.
    cbn [files dirs next_oid log].
    by destruct (relabel_list l n1).
Qed.

Lemma gather_trace_files w w' files_ n :
  files w' = files w -> gather_trace w' files_ n = gather_trace w files_ n.
Proof.
  intros H. revert n. induction files_ as [|file rest IH]; intros n; [done|].
  cbn [gather_trace]. rewrite (read_document_files w w') by done.
  destruct (read_document w file); [|by rewrite IH].
  destruct (relabel a n) as [tree n1].
  destruct (relabel_list (children tree) n1) as [copies n2]. by rewrite IH.
Qed.

Lemma gather_log_files w w' files_ :
  files w' = files w -> gather_log w' files_ = gather_log w files_.
Proof.
  intros H. unfold gather_log. induction files_ as [|file rest IH]; [done|].
  cbn [flat_map]. rewrite IH. by rewrite (read_document_files w w').
Qed.

(** The loop, run: the pages gathered are the copies of the trace, the
    identities used are those of the trace, and the log grows by the
    messages of the loop. *)
Lemma gather_pages_run files_ : forall merged w,
  gather_pages files_ merged w
  = (Ok (merged ++ concat (map snd (gather_trace w files_ (next_oid w)).1)),
     mkWorld (files w) (dirs w) (gather_trace w files_ (next_oid w)).2
             (log w ++ gather_log w files_)).
Proof.
  induction files_ as [|file rest IH]; intros merged w.
  - unfold gather_log. simpl. rewrite !app_nil_r. by destruct w.
  - cbn [gather_pages]. unfold bind at 1. unfold log_callback at 1.
    unfold bind at 1. unfold try_except, bind at 1.
    rewrite extract_hwpx_xml_run. cbn [files dirs next_oid log].
    rewrite (read_document_files w) by done.
    cbn [gather_trace]. unfold gather_log. cbn [flat_map].
    destruct (read_document w file) as [d|e].
    + destruct (relabel d (next_oid w)) as [tree n1] eqn:Hrel.
      cbn [fst snd getroot]. unfold bind at 1. rewrite deepcopy_list_run.
      cbn [files dirs next_oid log]. unfold ret.
      destruct (relabel_list (children tree) n1) as [copies n2] eqn:Hcopies.
      cbn [fst snd]. rewrite IH. cbn [files dirs next_oid log].
      rewrite (gather_trace_files w) by done.
      rewrite (gather_log_files w) by done.
      destruct (gather_trace w rest n2) as [trace n3].
      cbn [fst snd map concat]. unfold gather_log.
      by rewrite <- !app_assoc.
    + unfold bind at 1. unfold log_callback at 1. unfold ret.
      cbn [files dirs next_oid log exc_msg Exception].
      rewrite IH. cbn [files dirs next_oid log].
      rewrite (gather_trace_files w) by done.
      rewrite (gather_log_files w) by done.
      destruct (gather_trace w rest (next_oid w)) as [trace n3].
      cbn [fst snd map concat app]. unfold gather_log.
      by rewrite <- !app_assoc.
Qed.

(** Every entry of the trace is what [gathered] says. *)
Lemma gather_trace_gathered w files_ : forall n,
  Forall2 (gathered w) files_ (gather_trace w files_ n).1.
Proof.
  induction files_ as [|file rest IH]; intros n; [constructor|].
  cbn [gather_trace]. destruct (read_document w file) as [d|e] eqn:Hdoc.
  - destruct (relabel_fresh d n) as (H1 & _ & H3).
    destruct (relabel d n) as [tree n1]. cbn [fst snd] in H1, H3.
    destruct (relabel_list_fresh' (children tree) n1) as (_ & _ & G3).
    destruct (relabel_list (children tree) n1) as [copies n2]. cbn [fst] in G3.
    specialize (IH n2). destruct (gather_trace w rest n2) as [trace n3].
    constructor; [|done]. unfold gathered. rewrite Hdoc. exists tree.
    split; [done|]. split; [done|]. cbn [snd]. rewrite G3.
    by apply strip_eq_fields in H3 as (_ & _ & _ & _ & ?).
  - specialize (IH n). destruct (gather_trace w rest n) as [trace n3].
    constructor; [|done]. unfold gathered. by rewrite Hdoc.
Qed.

(** The objects of the trace take the identities from [n] up to the
    counter the trace ends with, each once. *)
Lemma gather_trace_oids w files_ : forall n,
  (n <= (gather_trace w files_ n).2)%nat
  /\ trace_oids (gather_trace w files_ n).1
     = seq n ((gather_trace w files_ n).2 - n).
Proof.
  induction files_ as [|file rest IH]; intros n.
  - simpl. by rewrite Nat.sub_diag.
  - cbn [gather_trace]. destruct (read_document w file) as [d|e].
    + destruct (relabel_fresh d n) as (H1 & H2 & _).
      destruct (relabel d n) as [tree n1]. cbn [fst snd] in H1, H2.
      destruct (relabel_list_fresh' (children tree) n1) as (G1 & G2 & _).
      destruct (relabel_list (children tree) n1) as [copies n2].
      cbn [fst snd] in G1, G2.
      destruct (IH n2) as [Hle Hoids].
      destruct (gather_trace w rest n2) as [trace n3]. cbn [fst snd] in *.
      split; [lia|]. unfold trace_oids in *. cbn [map concat fst snd from_option].
      rewrite Hoids, H2, G2. subst n1 n2.
      rewrite <- seq_app, <- Nat.add_assoc, <- seq_app. f_equal. lia.
    + destruct (IH n) as [Hle Hoids].
      destruct (gather_trace w rest n) as [trace n3]. cbn [fst snd] in *.
      split; [done|]. unfold trace_oids in *. by cbn [map concat fst snd from_option app].
Qed.

Lemma foldl_append root pages :
  foldl append root pages
  = mkElement (oid root) (tag root) (attrib root) (text root) (tail root)
              (children root ++ pages).
Proof.
  revert root. induction pages as [|page pages IH]; intros [i tg at_ tx tl cs].
  - simpl. by rewrite app_nil_r.
  - cbn [foldl append]. rewrite IH. simpl. by rewrite <- app_assoc.
Qed.
End Gather.


(* ================================================================== *)
(** * Further properties of the code *)
(* ================================================================== *)

(** ** More on [split_by_template] *)

Section SegmentCount.
Context {A : Type} (has_marker : A -> bool).

Lemma close_section_length (ss : list (list A)) (cur : list A) (p : A) :
  length (close_section (ss, if truthy cur then cur ++ [p] else cur))
  = length (close_section (ss, cur)).
Proof.
  unfold close_section. destruct cur; cbn [fst snd truthy app]; [done|].
  by rewrite !length_app.
Qed.

Lemma split_loop_length pages : forall ss cur,
  length (close_section (split_loop has_marker pages ss cur))
  = (length (close_section (ss, cur))
     + length (filter (fun p => has_marker p = true) pages))%nat.
Proof.
  induction pages as [|p pages IH]; intros ss cur.
  - simpl. lia.
  - cbn [split_loop]. destruct (has_marker p) eqn:Hp.
    + rewrite IH, filter_cons_True by done.
      unfold close_section at 1. cbn [fst snd truthy].
      rewrite length_app. unfold close_section. cbn [fst snd length]. lia.
    + rewrite IH, filter_cons_False by congruence.
      by rewrite close_section_length.
Qed.
End SegmentCount.

(** X1.  [split_by_template] returns as many sections as there are pages,
    after the slice, whose text contains the marker. *)
Theorem split_by_template_count tree template skip_pages :
  length (split_by_template tree template skip_pages)
  = length (filter (fun page => marker_in template page = true)
                   (slice_from (children (getroot tree)) skip_pages)).
Proof.
  unfold split_by_template, segment. by rewrite split_loop_length.
Qed.

(** X2.  When the text of every page that remains after the slice
    contains the marker, every such page is a section of its own, in
    page order: a document merged from one-page documents that all carry
    the marker splits back into its pages. *)
Theorem split_by_template_all_marked tree template skip_pages :
  Forall (fun page => occurs_in template (page_text page))
         (slice_from (children (getroot tree)) skip_pages) ->
  split_by_template tree template skip_pages
  = map (fun page => [page]) (slice_from (children (getroot tree)) skip_pages).
Proof.
  intros Hall. unfold split_by_template, segment.
  rewrite split_loop_all_match; [done|].
  eapply Forall_impl; [exact Hall|]. intros page Hp. by apply marker_in_occurs.
Qed.

Lemma split_by_template_all_marked_witness :
  split_by_template
    (mkElementTree (mkElement 0 (ascii_str "sec") [] None None
                              [Sample.P1; Sample.P3]))
    Sample.marker 0
  = [[Sample.P1]; [Sample.P3]].
Proof.
  apply (split_by_template_all_marked
           (mkElementTree (mkElement 0 (ascii_str "sec") [] None None
                                     [Sample.P1; Sample.P3]))
           Sample.marker 0).
  repeat constructor; apply marker_in_occurs; by vm_compute.
Defined.

(** X3.  A skip count that is not below the number of pages leaves
    nothing to segment: the result is empty, whatever the marker. *)
Theorem split_by_template_skip_all tree template skip_pages :
  (Z.of_nat (length (children (getroot tree))) <= skip_pages)%Z ->
  split_by_template tree template skip_pages = [].
Proof.
  intros Hk. unfold split_by_template, slice_from.
  destruct (0 <=? skip_pages)%Z eqn:E; [|lia].
  rewrite drop_ge by lia. done.
Qed.

Lemma split_by_template_skip_all_witness :
  split_by_template Sample.tree Sample.marker 5 = [].
Proof.
  apply (split_by_template_skip_all Sample.tree Sample.marker 5).
  simpl. lia.
Defined.

(** ** More on [extract_hwpx_xml] *)

Section ExtractMore.
Context `{L : Library}.

(** X4.  [extract_hwpx_xml] never changes a file, a directory or the
    log.  When it raises, the exception is of class [Exception], carries
    the exception of the step that failed as its context, has that
    exception's message behind the fixed prefix as its message, and no
    object has been created. *)
Theorem extract_hwpx_xml_frame path w r w' :
  extract_hwpx_xml path w = (r, w') ->
  files w' = files w /\ dirs w' = dirs w /\ log w' = log w
  /\ forall e, r = Raise e ->
       w' = w
       /\ exc_cls e = ascii_str "Exception"
       /\ exists cause, exc_context e = Some cause
                        /\ exc_msg e = extract_error_prefix ++ exc_msg cause.
Proof.
  rewrite extract_hwpx_xml_run.
  destruct (read_document w path) as [d|cause]; intros [= <- <-].
  - by repeat split.
  - split; [reflexivity|]. split; [reflexivity|]. split; [reflexivity|].
    intros e0 He. injection He as <-.
    split; [reflexivity|]. split; [reflexivity|].
    exists cause. split; reflexivity.
Qed.

(** X5.  On a document the accessor can read it returns the fixed content
    path and a tree that is, object identities aside, the tree of the
    parser; its nodes are new objects, numbered in document order from
    the first unused identity. *)
Theorem extract_hwpx_xml_success path w d :
  read_document w path = Ok d ->
  exists tree w',
    extract_hwpx_xml path w = (Ok (tree, section0), w')
    /\ strip (getroot tree) = strip d
    /\ oids (getroot tree) = seq (next_oid w) (size d)
    /\ next_oid w' = (next_oid w + size d)%nat
    /\ files w' = files w /\ dirs w' = dirs w /\ log w' = log w.
Proof.
  intros Hdoc. rewrite extract_hwpx_xml_run, Hdoc.
  destruct (relabel_fresh d (next_oid w)) as (H1 & H2 & H3).
  eexists _, _. split; [done|]. by repeat split.
Qed.
End ExtractMore.

Lemma extract_hwpx_xml_frame_witness :
  files (extract_hwpx_xml (L:=Toy.library) (ascii_str "in/doc.hwpx")
           (Toy.world [(ascii_str "in/doc.hwpx", Archive (Toy.archive "one"))] [])).2
  = list_to_map [(ascii_str "in/doc.hwpx", Archive (Toy.archive "one"))].
Proof.
  exact (proj1 (extract_hwpx_xml_frame (L:=Toy.library) (ascii_str "in/doc.hwpx")
                  (Toy.world [(ascii_str "in/doc.hwpx", Archive (Toy.archive "one"))] [])
                  _ _ (surjective_pairing _))).
Defined.

Lemma extract_hwpx_xml_success_witness :
  exists tree w',
    extract_hwpx_xml (L:=Toy.library) (ascii_str "in/doc.hwpx")
      (Toy.world [(ascii_str "in/doc.hwpx", Archive (Toy.archive "one"))] [])
    = (Ok (tree, section0), w')
    /\ strip (getroot tree) = strip (Toy.document (ascii_str "one"))
    /\ oids (getroot tree) = [1000; 1001; 1002]%nat.
Proof.
  destruct (extract_hwpx_xml_success (L:=Toy.library) (ascii_str "in/doc.hwpx")
              (Toy.world [(ascii_str "in/doc.hwpx", Archive (Toy.archive "one"))] [])
              (Toy.document (ascii_str "one")))
    as (tree & w' & H1 & H2 & H3 & _); [by vm_compute|].
  by exists tree, w'.
Defined.

(** ** [create_section_tree] *)

Section SectionTree.
Context `{L : Library}.

Lemma append_copies_run section_pages : forall new_root w,
  append_copies new_root section_pages w
  = (Ok (foldl append new_root (relabel_list section_pages (next_oid w)).1),
     mkWorld (files w) (dirs w) (relabel_list section_pages (next_oid w)).2
             (log w)).
Proof.
  induction section_pages as [|page rest IH]; intros new_root w.
  - by destruct w.
  - cbn [append_copies relabel_list]. unfold bind, deepcopy, allocate.
    destruct (relabel page (next_oid w)) as [page' n1]. rewrite IH.
    cbn [files dirs next_oid log]. by destruct (relabel_list rest n1).
Qed.

Lemma create_section_tree_run original_tree section_pages w :
  create_section_tree original_tree section_pages w
  = (Ok (mkElementTree
           (mkElement (next_oid w) (tag (getroot original_tree))
                      (attrib (getroot original_tree)) None None
                      (relabel_list section_pages (S (next_oid w))).1)),
     mkWorld (files w) (dirs w)
             (relabel_list section_pages (S (next_oid w))).2 (log w)).
Proof.
  unfold create_section_tree, bind, ET_Element, allocate. cbn [relabel].
  rewrite append_copies_run. cbn [files dirs next_oid log]. unfold ret.
  by rewrite foldl_append.
Qed.

(** X6.  [create_section_tree] always returns.  The new root has the tag
    and the attributes of the original root and neither text nor tail
    (the text of the original root is not carried over); its children
    are, object identities aside, the given pages in their order; the
    root and every node below it are new objects; files, directories and
    log are as before. *)
Theorem create_section_tree_spec original_tree section_pages w :
  exists new_root w',
    create_section_tree original_tree section_pages w
    = (Ok (mkElementTree new_root), w')
    /\ tag new_root = tag (getroot original_tree)
    /\ attrib new_root = attrib (getroot original_tree)
    /\ text new_root = None /\ tail new_root = None
    /\ map strip (children new_root) = map strip section_pages
    /\ oids new_root
       = seq (next_oid w) (S (list_sum (map size section_pages)))
    /\ next_oid w' = (next_oid w + S (list_sum (map size section_pages)))%nat
    /\ files w' = files w /\ dirs w' = dirs w /\ log w' = log w.
Proof.
  rewrite create_section_tree_run.
  destruct (relabel_list_fresh' section_pages (S (next_oid w))) as (H1 & H2 & H3).
  eexists _, _. split; [done|]. cbn [tag attrib text tail children oids
    files dirs next_oid log]. rewrite H1, H2, H3.
  repeat split; try done. lia.
Qed.
End SectionTree.

(** ** More on [create_section_hwpx] *)

Section RewriteMore.
Context `{Laws : LibraryLaws}.

(** The call, run: what fails before the loop leaves the world alone;
    after that the output holds what the loop has written. *)
Lemma create_section_hwpx_run original_file section_tree xml_path output_file w :
  create_section_hwpx original_file section_tree xml_path output_file w
  = match files w !! original_file with
    | Some (Archive zin) =>
        match dirs w !! output_file with
        | Some _ => (Raise (create_error output_file), w)
        | None =>
            let '(outcome, zout) :=
              copy_members (bool_decide (original_file = output_file)) zin
                           section_tree xml_path (infolist zin) [] in
            (outcome,
             mkWorld (<[output_file := Archive zout]> (files w)) (dirs w)
                     (next_oid w) (log w))
        end
    | Some (NotArchive e) => (Raise e, w)
    | None => (Raise (open_error original_file), w)
    end.
Proof.
  unfold create_section_hwpx, bind, zip_open, zip_create.
  destruct (files w !! original_file) as [[zin|e]|]; [|done..].
  destruct (dirs w !! output_file); [done|].
  unfold put_file at 2. cbn [files dirs next_oid log].
  destruct (copy_members _ zin section_tree xml_path (infolist zin) [])
    as [outcome zout].
  unfold put_file, lift. cbn [files dirs next_oid log].
  by rewrite insert_insert_eq.
Qed.

(** What the loop writes for an entry of the reference: the entry itself,
    over the declaration and the serialised tree when it is the content
    member, and otherwise over the content of the entry that the
    directory of the reference keeps under that name. *)
Definition rewritten (zin : list Member) (section_tree : ElementTree)
           (xml_path : str) (m m' : Member) : Prop :=
  info m' = info m
  /\ if bool_decide (filename (info m) = xml_path) then
       exists xml_bytes,
         ET.tostring (getroot section_tree) = Ok xml_bytes
         /\ decompress (compress_type (info m)) (stored m')
            = Ok (xml_declaration_bytes ++ xml_bytes)
     else
       exists src d,
         getinfo zin (filename (info m)) = Some src
         /\ decompress (compress_type (info src)) (stored src) = Ok d
         /\ decompress (compress_type (info m)) (stored m') = Ok d.

Lemma copy_member_ok zin section_tree xml_path zout m zout' :
  copy_member false zin section_tree xml_path zout (info m) = Ok zout' ->
  exists m', zout' = zout ++ [m'] /\ rewritten zin section_tree xml_path m m'.
Proof.
  unfold copy_member, rewritten, writestr.
  destruct (bool_decide (filename (info m) = xml_path)).
  - destruct (ET.tostring (getroot section_tree)) as [xml_bytes|]; [|done].
    cbn [rbind].
    destruct (compress _ (xml_declaration_bytes ++ xml_bytes)) as [s'|] eqn:Hs;
      [|done].
    intros [= <-]. exists (mkMember (info m) s'). split; [done|].
    split; [done|]. exists xml_bytes. split; [done|].
    by apply decompress_compress.
  - unfold zip_read. destruct (getinfo zin (filename (info m))) as [src|]; [|done].
    destruct (decompress (compress_type (info src)) (stored src)) as [d|] eqn:Hd;
      [|done].
    cbn [rbind]. destruct (compress _ d) as [s'|] eqn:Hs; [|done].
    intros [= <-]. exists (mkMember (info m) s'). split; [done|].
    split; [done|]. exists src, d. split; [done|]. split; [done|].
    by apply decompress_compress.
Qed.


(** The loop ends in an exception: the entries in front of the one that
    failed have been written, and nothing else. *)
Lemma copy_members_raise zin section_tree xml_path ms : forall zout0 zout e,
  copy_members false zin section_tree xml_path (infolist ms) zout0 = (Raise e, zout) ->
  exists pre m post added,
    ms = pre ++ m :: post
    /\ zout = zout0 ++ added
    /\ Forall2 (rewritten zin section_tree xml_path) pre added
    /\ copy_member false zin section_tree xml_path zout (info m) = Raise e.
Proof.
  induction ms as [|m ms IH]; intros zout0 zout e; [done|].
  cbn [infolist map copy_members].
  destruct (copy_member false zin section_tree xml_path zout0 (info m))
    as [zout1|e'] eqn:Hstep.
  - apply copy_member_ok in Hstep as (m' & -> & Hm').
    intros Hrest. apply IH in Hrest as (pre & m0 & post & added & -> & -> & Hall & Hfail).
    exists (m :: pre), m0, post, (m' :: added).
    split; [done|]. split; [by rewrite <- app_assoc|].
    split; [by constructor|]. done.
  - intros [= <- <-]. exists [], m, ms, [].
    split; [done|]. split; [by rewrite app_nil_r|].
    split; [constructor|]. done.
Qed.

Lemma Forall2_rewritten_infolist zin section_tree xml_path ms added :
  Forall2 (rewritten zin section_tree xml_path) ms added ->
  infolist added = infolist ms.
Proof.
  unfold infolist. induction 1 as [|m m' ? ? [Hi _] _ IH]; [done|].
  simpl. by rewrite Hi, IH.
Qed.

(** X7.  When the reference cannot be opened as an archive, or the
    output path is a directory, [create_section_hwpx] raises and
    nothing is created or changed: the output is opened only after the
    reference. *)
Theorem create_section_hwpx_nothing_opened
        original_file section_tree xml_path output_file w :
  (forall zin, files w !! original_file <> Some (Archive zin))
  \/ is_Some (dirs w !! output_file) ->
  exists e,
    create_section_hwpx original_file section_tree xml_path output_file w
    = (Raise e, w).
Proof.
  intros Hbad. rewrite create_section_hwpx_run.
  destruct (files w !! original_file) as [[zin|e]|] eqn:Hf; [|eauto..].
  destruct Hbad as [Hbad|[l Hl]]; [by destruct (Hbad zin)|].
  rewrite Hl. eauto.
Qed.

(** X8.  When [create_section_hwpx] raises while it copies, the output
    file exists and holds the entries of the reference in front of the
    one that failed, and no more: a truncated archive is left behind. *)
Theorem create_section_hwpx_partial_output
        original_file section_tree xml_path output_file w zin e w' :
  files w !! original_file = Some (Archive zin) ->
  original_file <> output_file ->
  dirs w !! output_file = None ->
  create_section_hwpx original_file section_tree xml_path output_file w
  = (Raise e, w') ->
  exists pre m post zout,
    zin = pre ++ m :: post
    /\ files w' = <[output_file := Archive zout]> (files w)
    /\ infolist zout = infolist pre
    /\ Forall2 (rewritten zin section_tree xml_path) pre zout.
Proof.
  intros Hf Hne Hd. rewrite create_section_hwpx_run, Hf, Hd.
  rewrite bool_decide_eq_false_2 by done.
  destruct (copy_members false zin section_tree xml_path (infolist zin) [])
    as [outcome zout] eqn:Hrun.
  intros [= -> <-].
  apply copy_members_raise in Hrun as (pre & m & post & added & -> & -> & Hall & _).
  exists pre, m, post, added. repeat split; try done.
  by apply Forall2_rewritten_infolist in Hall.
Qed.

(** X9.  Writing onto the reference itself destroys it: when the output
    path is the path of the reference and the first entry is not the
    content member, the call raises and the file is left as an empty
    archive. *)
Theorem create_section_hwpx_onto_itself path section_tree xml_path w m rest :
  files w !! path = Some (Archive (m :: rest)) ->
  filename (info m) <> xml_path ->
  dirs w !! path = None ->
  create_section_hwpx path section_tree xml_path path w
  = (Raise BadZipFile_truncated,
     mkWorld (<[path := Archive []]> (files w)) (dirs w) (next_oid w) (log w)).
Proof.
  intros Hf Hname Hd. rewrite create_section_hwpx_run, Hf, Hd.
  rewrite bool_decide_eq_true_2 by done.
  cbn [infolist map copy_members]. unfold copy_member.
  by rewrite bool_decide_eq_false_2.
Qed.


End RewriteMore.

(** Worlds for concrete runs of the rewrite. *)
Definition doc_path : str := ascii_str "in/doc.hwpx".
Definition out_path : str := ascii_str "out/section_1.hwpx".

(** An archive whose last member cannot be read. *)
Definition broken_archive : list Member :=
  [ mkMember (Toy.entry "mimetype" 0) (Toy.bytes "application/hwp+zip");
    mkMember (Toy.entry "Contents/section0.xml" 8) (x09 :: Toy.bytes "<one");
    mkMember (Toy.entry "Contents/header.xml" 8) [] ].


Lemma create_section_hwpx_nothing_opened_witness :
  exists e,
    create_section_hwpx (L:=Toy.library) doc_path Sample.tree section0 out_path
      (Toy.world [] [])
    = (Raise e, Toy.world [] []).
Proof.
  apply (create_section_hwpx_nothing_opened (L:=Toy.library)).
  left. intros zin H. by vm_compute in H.
Defined.

Lemma create_section_hwpx_partial_output_witness :
  exists pre m post zout,
    broken_archive = pre ++ m :: post
    /\ files (create_section_hwpx (L:=Toy.library) doc_path Sample.tree section0
                out_path (Toy.world [(doc_path, Archive broken_archive)] [])).2
       = <[out_path := Archive zout]>
           (files (Toy.world [(doc_path, Archive broken_archive)] []))
    /\ infolist zout = infolist pre
    /\ Forall2 (rewritten (L:=Toy.library) broken_archive Sample.tree section0)
               pre zout.
Proof.
  apply (create_section_hwpx_partial_output (L:=Toy.library)
           doc_path Sample.tree section0 out_path
           (Toy.world [(doc_path, Archive broken_archive)] [])
           broken_archive Toy.bad_data).
  - by vm_compute.
  - by vm_compute.
  - by vm_compute.
  - by vm_compute.
Defined.

Lemma create_section_hwpx_onto_itself_witness :
  create_section_hwpx (L:=Toy.library) doc_path Sample.tree section0 doc_path
    (Toy.world [(doc_path, Archive (Toy.archive "one"))] [])
  = (Raise BadZipFile_truncated,
     mkWorld (<[doc_path := Archive []]>
                (files (Toy.world [(doc_path, Archive (Toy.archive "one"))] [])))
             (list_to_map []) 1000 []).
Proof.
  apply (create_section_hwpx_onto_itself (L:=Toy.library) doc_path Sample.tree
           section0 (Toy.world [(doc_path, Archive (Toy.archive "one"))] [])
           (mkMember (Toy.entry "mimetype" 0) (Toy.bytes "application/hwp+zip"))
           (List.tl (Toy.archive "one"))).
  - by vm_compute.
  - by vm_compute.
  - by vm_compute.
Defined.



(** ** More on [process_file] *)

Section ProcessMore.
Context `{Laws : LibraryLaws}.

(** [process_file], run up to the loop over the sections. *)
Lemma process_file_run input_file output_dir template skip_pages w :
  process_file input_file output_dir template skip_pages w
  = match read_document w input_file with
    | Raise e =>
        (Ok tt, mkWorld (files w) (dirs w) (next_oid w)
                        ((log w ++ [u "XML 파일 추출 중..."]) ++ [exc_msg
                           (Exception (extract_error_prefix ++ exc_msg e) e)]))
    | Ok root =>
        let tree := mkElementTree (relabel root (next_oid w)).1 in
        let w1 := mkWorld (files w) (dirs w) (relabel root (next_oid w)).2
                    ((log w ++ [u "XML 파일 추출 중..."])
                       ++ [u "분리 기준에 따라 페이지 분리 중..."]) in
        let sections := split_by_template tree template skip_pages in
        if negb (truthy sections) then
          log_callback (no_boundary_message template) w1
        else
          (_ <- makedirs output_dir ;;
           _ <- log_callback (u "총 " ++ of_N (N.of_nat (length sections))
                                ++ u "개의 구간이 발견되었습니다.") ;;
           write_sections input_file output_dir tree section0 1 sections) w1
    end.
Proof.
  unfold process_file. unfold bind at 1. unfold try_except.
  unfold bind at 1. unfold log_callback at 1. unfold bind at 1.
  rewrite extract_hwpx_xml_run. cbn [files dirs next_oid log].
  rewrite (read_document_files w) by reflexivity.
  destruct (read_document w input_file) as [root|e].
  - unfold ret. unfold bind at 1. unfold log_callback at 1.
    cbn [files dirs next_oid log]. cbn zeta.
    destruct (negb (truthy (split_by_template _ template skip_pages)));
      reflexivity.
  - unfold bind at 1. unfold log_callback at 1. unfold ret.
    cbn [files dirs next_oid log]. reflexivity.
Qed.

Lemma makedirs_fails (path : str) w :
  path = [] \/ is_Some (files w !! path) ->
  makedirs path w = (Raise (makedirs_error path), w).
Proof.
  intros Hbad. unfold makedirs.
  destruct Hbad as [->|Hsome]; [reflexivity|].
  rewrite (bool_decide_eq_true_2 _ Hsome). by rewrite orb_true_r.
Qed.

Lemma makedirs_ok (path : str) w :
  path <> [] -> files w !! path = None ->
  makedirs path w
  = (Ok tt, mkWorld (files w)
                    (match dirs w !! path with
                     | Some _ => dirs w
                     | None => <[path := []]> (dirs w)
                     end) (next_oid w) (log w)).
Proof.
  intros Hne Hfile. unfold makedirs. rewrite Hfile.
  rewrite bool_decide_eq_false_2 by (by intros [? ?]).
  assert (Ht : truthy path = true) by (by destruct path).
  rewrite Ht. cbn [negb orb].
  destruct (dirs w !! path); [destruct w|]; reflexivity.
Qed.

(** X12.  When the accessor fails on the input, [process_file] returns
    normally: it has logged the start message and the message of the
    accessor's exception; no file and no directory has been touched. *)
Theorem process_file_extract_fails
        input_file output_dir template skip_pages w e :
  read_document w input_file = Raise e ->
  process_file input_file output_dir template skip_pages w
  = (Ok tt, mkWorld (files w) (dirs w) (next_oid w)
                    (log w ++ [u "XML 파일 추출 중...";
                               extract_error_prefix ++ exc_msg e])).
Proof.
  intros Hdoc. rewrite process_file_run, Hdoc. cbn [exc_msg Exception].
  rewrite <- app_assoc. cbn [app]. reflexivity.
Qed.

(** X13.  [os.makedirs] is called outside any handler: when the document
    has a section and the output directory cannot be created (its path
    is empty or names a regular file), [process_file] does not return
    but raises the exception of [os.makedirs]; nothing has been
    written. *)
Theorem process_file_makedirs_raises
        input_file output_dir template skip_pages w root :
  read_document w input_file = Ok root ->
  split_by_template (mkElementTree (relabel root (next_oid w)).1)
                    template skip_pages <> [] ->
  output_dir = [] \/ is_Some (files w !! output_dir) ->
  exists w',
    process_file input_file output_dir template skip_pages w
    = (Raise (makedirs_error output_dir), w')
    /\ files w' = files w /\ dirs w' = dirs w.
Proof.
  intros Hdoc Hsec Hbad. rewrite process_file_run, Hdoc. cbn zeta.
  destruct (split_by_template _ template skip_pages) as [|sec secs]; [done|].
  cbn [truthy negb]. unfold bind at 1.
  rewrite makedirs_fails by exact Hbad.
  eexists. split; [reflexivity|]. by split.
Qed.
End ProcessMore.

Lemma process_file_extract_fails_witness :
  process_file (L:=Toy.library) doc_path (ascii_str "out") Sample.marker 0
    (Toy.world [(doc_path,
                 Archive [mkMember (Toy.entry "mimetype" 0) (Toy.bytes "text/plain")])] [])
  = (Ok tt,
     mkWorld (list_to_map
                [(doc_path,
                  Archive [mkMember (Toy.entry "mimetype" 0) (Toy.bytes "text/plain")])])
             (list_to_map []) 1000
             [u "XML 파일 추출 중...";
              extract_error_prefix ++ missing_member_message section0]).
Proof.
  apply (process_file_extract_fails (L:=Toy.library) doc_path (ascii_str "out")
           Sample.marker 0
           (Toy.world [(doc_path,
                        Archive [mkMember (Toy.entry "mimetype" 0)
                                          (Toy.bytes "text/plain")])] [])
           (FileNotFoundError (missing_member_message section0))).
  by vm_compute.
Defined.

Lemma process_file_makedirs_raises_witness :
  exists w',
    process_file (L:=Toy.library) doc_path (ascii_str "out") Sample.marker 0
      (Toy.world [(doc_path, Archive (Toy.archive "[FORM] one"));
                  (ascii_str "out", NotArchive Toy.bad_data)] [])
    = (Raise (Toy.os_error "FileExistsError" (ascii_str "out")), w')
    /\ files w'
       = files (Toy.world [(doc_path, Archive (Toy.archive "[FORM] one"));
                           (ascii_str "out", NotArchive Toy.bad_data)] [])
    /\ dirs w' = list_to_map [].
Proof.
  apply (process_file_makedirs_raises (L:=Toy.library) doc_path (ascii_str "out")
           Sample.marker 0
           (Toy.world [(doc_path, Archive (Toy.archive "[FORM] one"));
                       (ascii_str "out", NotArchive Toy.bad_data)] [])
           (Toy.document (ascii_str "[FORM] one"))).
  - by vm_compute.
  - intros H. by vm_compute in H.
  - right. eexists. vm_compute. reflexivity.
Defined.

(** ** The files [process_file] writes *)

Lemma ascii_str_inj a b : ascii_str a = ascii_str b -> a = b.
Proof.
  unfold ascii_str. revert b. induction a as [|c a IH]; intros [|d b] H;
    try done.
  simpl in H. injection H as Hc Hr. f_equal; [|by apply IH].
  rewrite <- (ascii_N_embedding c), <- (ascii_N_embedding d). by rewrite Hc.
Qed.

Lemma of_N_inj a b : of_N a = of_N b -> a = b.
Proof. intros H. apply ascii_str_inj in H. by apply (inj pretty) in H. Qed.

Lemma section_file_name_inj i j :
  section_file_name i = section_file_name j -> i = j.
Proof.
  unfold section_file_name. intros H.
  apply app_inv_head, app_inv_tail, of_N_inj in H. lia.
Qed.

Lemma section_file_name_relative i :
  startswith (section_file_name i) [47] = false.
Proof. reflexivity. Qed.

(** X14.  The files of two different sections have different paths: no
    section is written over another one. *)
Theorem section_paths_distinct output_dir i j :
  path_join output_dir (section_file_name i)
  = path_join output_dir (section_file_name j) ->
  i = j.
Proof.
  unfold path_join. rewrite !section_file_name_relative.
  destruct (negb (truthy output_dir) || endswith output_dir [47]); intros H.
  - by apply app_inv_head, section_file_name_inj in H.
  - by apply app_inv_head, app_inv_head, section_file_name_inj in H.
Qed.

Lemma section_paths_distinct_witness :
  path_join (ascii_str "out") (section_file_name 1)
  = path_join (ascii_str "out") (section_file_name 1) /\ 1%nat = 1%nat.
Proof.
  split; [reflexivity|].
  apply (section_paths_distinct (ascii_str "out") 1 1). reflexivity.
Defined.

Section ProcessFrame.
Context `{Laws : LibraryLaws}.

(** [create_section_hwpx] touches no file but the output, no directory,
    and not the log. *)
Lemma create_section_hwpx_frame original_file section_tree xml_path output_file w :
  exists r w',
    create_section_hwpx original_file section_tree xml_path output_file w = (r, w')
    /\ dirs w' = dirs w /\ next_oid w' = next_oid w /\ log w' = log w
    /\ forall p, p <> output_file -> files w' !! p = files w !! p.
Proof.
  rewrite create_section_hwpx_run.
  destruct (files w !! original_file) as [[zin|e]|];
    [|eexists _, _; by repeat split..].
  destruct (dirs w !! output_file); [eexists _, _; by repeat split|].
  destruct (copy_members _ zin section_tree xml_path (infolist zin) [])
    as [outcome zout].
  eexists _, _. split; [reflexivity|]. repeat split.
  intros p Hp. cbn [files]. by rewrite lookup_insert_ne.
Qed.

(** The loop over the sections always returns; it leaves the directories
    alone and writes to no path but those of section files. *)
Lemma write_sections_frame input_file output_dir tree xml_path sections :
  forall i w,
  exists w',
    write_sections input_file output_dir tree xml_path i sections w = (Ok tt, w')
    /\ dirs w' = dirs w
    /\ forall p, (forall k, p <> path_join output_dir (section_file_name k)) ->
                 files w' !! p = files w !! p.
Proof.
  induction sections as [|section_pages rest IH]; intros i w.
  - exists w. by repeat split.
  - cbn [write_sections]. unfold bind at 1. unfold log_callback at 1.
    unfold bind at 1. rewrite create_section_tree_run.
    cbn [files dirs next_oid log]. unfold bind at 1. unfold try_except.
    unfold bind at 1.
    match goal with
    | |- context [create_section_hwpx ?a ?b ?c ?d ?w0] =>
        destruct (create_section_hwpx_frame a b c d w0)
          as (r & w1 & Hrun & Hd & Hn & Hl & Hf); rewrite Hrun
    end.
    cbn [files dirs next_oid log] in Hd, Hf.
    destruct r as [[]|e]; unfold log_callback at 1.
    + match goal with
      | |- context [write_sections _ _ _ _ _ rest ?w2] =>
          destruct (IH (S i) w2) as (w' & Hrest & Hd' & Hf'); rewrite Hrest
      end.
      cbn [files dirs] in Hd', Hf'.
      exists w'. split; [reflexivity|]. split; [congruence|].
      intros p Hp. rewrite Hf' by exact Hp. apply Hf, Hp.
    + match goal with
      | |- context [write_sections _ _ _ _ _ rest ?w2] =>
          destruct (IH (S i) w2) as (w' & Hrest & Hd' & Hf'); rewrite Hrest
      end.
      cbn [files dirs] in Hd', Hf'.
      exists w'. split; [reflexivity|]. split; [congruence|].
      intros p Hp. rewrite Hf' by exact Hp. apply Hf, Hp.
Qed.

(** X15.  Whatever the input, [process_file] changes no file other than
    the section files [section_<k>.hwpx] under the output directory, and
    creates no directory but the output directory; the only exception it
    can raise is that of [os.makedirs]: a failure of the accessor or of
    the writing of a section is logged, and the remaining sections are
    still written. *)
Theorem process_file_frame input_file output_dir template skip_pages w r w' :
  process_file input_file output_dir template skip_pages w = (r, w') ->
  (forall p, (forall k, p <> path_join output_dir (section_file_name k)) ->
             files w' !! p = files w !! p)
  /\ (dirs w' = dirs w \/ dirs w' = <[output_dir := []]> (dirs w))
  /\ (forall e, r = Raise e -> e = makedirs_error output_dir).
Proof.
  rewrite process_file_run.
  destruct (read_document w input_file) as [root|e].
  - cbn zeta.
    destruct (negb (truthy (split_by_template _ template skip_pages))).
    + unfold log_callback. intros [= <- <-]. cbn [files dirs].
      split; [done|]. split; [by left|]. intros e He. discriminate He.
    + unfold bind at 1. unfold makedirs. cbn [files dirs next_oid log].
      destruct (negb (truthy output_dir)
                || bool_decide (is_Some (files w !! output_dir))).
      { intros [= <- <-]. cbn [files dirs]. split; [done|]. split; [by left|].
        by intros e [= <-]. }
      unfold bind at 1. unfold log_callback at 1.
      destruct (dirs w !! output_dir) as [l|] eqn:Hdir;
        cbn [files dirs next_oid log];
        match goal with
        | |- context [write_sections ?a ?b ?c ?d ?i ?s ?w0] =>
            destruct (write_sections_frame a b c d s i w0)
              as (w2 & Hrun & Hd & Hf); rewrite Hrun
        end;
        cbn [files dirs] in Hd, Hf; intros [= <- <-].
      * split; [exact Hf|]. split; [by left|]. intros e He. discriminate He.
      * split; [exact Hf|]. split; [by right|]. intros e He. discriminate He.
  - intros [= <- <-]. cbn [files dirs]. split; [done|]. split; [by left|].
    intros e0 He. discriminate He.
Qed.
End ProcessFrame.

(** ** The serialisation does not see object identities *)

Lemma populate_unfold i tg at_ tx tl cs st :
  ET.populate (mkElement i tg at_ tx tl cs) st
  = rbind (ET.note_qname st tg) (fun st =>
    rbind (ET.note_keys st (map fst at_)) (fun st =>
      ET.populate_list cs st)).
Proof. reflexivity. Qed.

Lemma populate_strip e : forall st, ET.populate (strip e) st = ET.populate e st.
Proof.
  induction e as [i tg at_ tx tl cs IH] using Element_ind'. intros st.
  cbn [strip]. rewrite !populate_unfold.
  destruct (ET.note_qname st tg) as [st1|]; [|done]. cbn [rbind].
  destruct (ET.note_keys st1 (map fst at_)) as [st2|]; [|done]. cbn [rbind].
  clear st st1. revert st2.
  induction IH as [|c cs Hc _ IHcs]; intros st; [done|].
  cbn [map ET.populate_list]. rewrite Hc.
  destruct (ET.populate c st) as [st'|]; [|done]. cbn [rbind]. apply IHcs.
Qed.

Lemma serialize_strip e :
  forall qnames namespaces,
    ET._serialize_xml qnames namespaces (strip e)
    = ET._serialize_xml qnames namespaces e.
Proof.
  induction e as [i tg at_ tx tl cs IH] using Element_ind'.
  intros qnames namespaces. cbn [strip ET._serialize_xml].
  assert (Hcs : concat (map (ET._serialize_xml qnames []) (map strip cs))
                = concat (map (ET._serialize_xml qnames []) cs)).
  { f_equal. rewrite map_map. clear -IH.
    induction IH as [|c cs Hc _ IHcs]; [done|]. cbn [map]. by rewrite Hc, IHcs. }
  rewrite Hcs.
  assert (Ht : truthy (map strip cs) = truthy cs) by (by destruct cs).
  by rewrite Ht.
Qed.

Lemma tostring_strip e : ET.tostring (strip e) = ET.tostring e.
Proof.
  unfold ET.tostring, ET._namespaces. rewrite populate_strip.
  destruct (ET.populate e ([], [])) as [[qnames namespaces]|]; [|done].
  cbn [rbind]. by rewrite serialize_strip.
Qed.

Lemma tostring_same_shape e e' :
  strip e = strip e' -> ET.tostring e = ET.tostring e'.
Proof. intros H. by rewrite <- (tostring_strip e), H, tostring_strip. Qed.

Section SameShape.
Context `{L : Library}.

Lemma copy_members_same_shape emptied zin t t' xml_path items :
  strip (getroot t) = strip (getroot t') ->
  forall zout,
    copy_members emptied zin t xml_path items zout
    = copy_members emptied zin t' xml_path items zout.
Proof.
  intros Hshape. induction items as [|item rest IH]; intros zout; [done|].
  cbn [copy_members]. unfold copy_member.
  rewrite (tostring_same_shape _ _ Hshape).
  destruct (bool_decide (filename item = xml_path)).
  - destruct (rbind (ET.tostring (getroot t')) _); [apply IH|done].
  - destruct (rbind _ _); [apply IH|done].
Qed.
End SameShape.
